(** * ClassType: the class-type descriptor of the script compiler

    A shallow embedding of [torch/csrc/jit/script/class_type.cpp]: the
    attribute, constant and method tables of a class type, the checks that
    guard them, [refine], and the structural subtype check against an
    interface type.

    The member functions mutate [*this] and leave it mutated when they throw,
    so they are embedded in a state-and-exception monad whose outcome always
    carries the class type as it is when the call ends. *)

From Stdlib Require Import Ascii.
From Stdlib Require String.
From stdpp Require Import base option list strings pretty.

(** ** Type descriptors *)

(** Modelled from the spec: [QualifiedName] (declared outside this file), an
    optional fully-qualified name; only its rendering matters here. *)
Definition QualifiedName : Type := string.

(** Modelled from the spec: [FunctionSchema], the call signature of a method:
    a name, arguments and returns. *)
Record FunctionSchemaOf (T : Type) : Type := mkFunctionSchema {
  schema_name : string;
  schema_arguments : list (string * T);
  schema_returns : list T
}.
Arguments mkFunctionSchema {T} _ _ _.
Arguments schema_name {T} _.
Arguments schema_arguments {T} _.
Arguments schema_returns {T} _.

(** Modelled from the spec: [InterfaceType], an ordered list of required
    method signatures and a module-capability flag. *)
Record InterfaceTypeOf (T : Type) : Type := mkInterfaceType {
  iface_name : QualifiedName;
  iface_methods : list (FunctionSchemaOf T);
  iface_is_module : bool
}.
Arguments mkInterfaceType {T} _ _ _.
Arguments iface_name {T} _.
Arguments iface_methods {T} _.
Arguments iface_is_module {T} _.

(** Modelled from the spec: the type descriptors ([TypePtr]) the class type
    stores and is compared with.  The kinds the source tests for are
    [TensorType], [OptionalType], [NoneType] and [InterfaceType]; [AnyType]
    is the catch-all that attributes may not hold. *)
#[local] Unset Elimination Schemes.
Inductive TypePtr : Type :=
  | AnyType
  | TensorType
  | NoneType
  | IntType
  | FloatType
  | BoolType
  | StringType
  | OptionalType (elem : TypePtr)
  | ListType (elem : TypePtr)
  | NamedClassType (qualname : QualifiedName)
  | InterfaceType (iface : InterfaceTypeOf TypePtr).
#[local] Set Elimination Schemes.

Definition FunctionSchema : Type := FunctionSchemaOf TypePtr.
Definition InterfaceTypePtr : Type := InterfaceTypeOf TypePtr.

Inductive TypeKind : Type :=
  | AnyTypeKind | TensorTypeKind | NoneTypeKind | IntTypeKind | FloatTypeKind
  | BoolTypeKind | StringTypeKind | OptionalTypeKind | ListTypeKind
  | ClassTypeKind | InterfaceTypeKind.

#[global] Instance TypeKind_eq_dec : EqDecision TypeKind.
Proof. solve_decision. Defined.

Definition kind (t : TypePtr) : TypeKind :=
  match t with
  | AnyType => AnyTypeKind
  | TensorType => TensorTypeKind
  | NoneType => NoneTypeKind
  | IntType => IntTypeKind
  | FloatType => FloatTypeKind
  | BoolType => BoolTypeKind
  | StringType => StringTypeKind
  | OptionalType _ => OptionalTypeKind
  | ListType _ => ListTypeKind
  | NamedClassType _ => ClassTypeKind
  | InterfaceType _ => InterfaceTypeKind
  end.

(** [rhs->cast<InterfaceType>()]: the interface when [rhs] is one, else null. *)
Definition cast_InterfaceType (rhs : TypePtr) : option InterfaceTypePtr :=
  match rhs with
  | InterfaceType iface => Some iface
  | _ => None
  end.

(** Modelled from the spec: [IValue], the value of a constant. *)
Inductive IValue : Type :=
  | IVNone
  | IVBool (b : bool)
  | IVInt (z : Z)
  | IVString (s : string).

(** Modelled from the spec: [Function], a method descriptor owned by the
    compilation unit.  The class type holds [Function*]; [fn_addr] stands for
    the pointer, so that equal entries are the same reference. *)
Record Function : Type := mkFunction {
  fn_addr : nat;
  fn_name : string;
  getSchema : FunctionSchema
}.

(** ** The class type *)

(** [parameterSlots_] is a shared pointer to a vector, null for a class that
    is not a module (see the constructor). *)
Record ClassType : Type := mkClassType {
  name : option QualifiedName;
  compilation_unit_ : nat;
  attributeNames_ : list string;
  attributeTypes_ : list TypePtr;
  parameterSlots_ : option (list bool);
  constantNames_ : list string;
  constantValues_ : list IValue;
  methods_ : list Function
}.

(** [ClassType::ClassType] and [ClassType::create]. *)
Definition create (qualifiedName : option QualifiedName) (cu : nat)
    (is_module : bool) : ClassType :=
  {| name := qualifiedName;
     compilation_unit_ := cu;
     attributeNames_ := [];
     attributeTypes_ := [];
     parameterSlots_ := if is_module then Some [] else None;
     constantNames_ := [];
     constantValues_ := [];
     methods_ := [] |}.

(** Modelled from the spec: [is_module()] (declared outside this file).  The
    constructor keeps no flag of its own: the parameter-slot sequence is
    allocated iff the class is a module, so the flag is its presence. *)
Definition is_module (c : ClassType) : bool :=
  match parameterSlots_ c with Some _ => true | None => false end.

(** Modelled from the spec: [numAttributes()] (declared outside this file),
    the length of [attributeNames_]. *)
Definition numAttributes (c : ClassType) : nat := length (attributeNames_ c).

(** [ClassType::methods]. *)
Definition methods (c : ClassType) : list Function := methods_ c.

(** Modelled from the spec: the default arguments of the declarations
    (outside this file): [create(name, cu)] builds a class that is not a
    module, and [addAttribute(name, type)] adds an attribute that is not a
    parameter. *)
Definition create_default_is_module : bool := false.
Definition addAttribute_default_is_parameter : bool := false.

(** ** Collaborators

    Functions of other translation units that the source calls: rendering of
    types, values and schemas, the catch-all test behind [checkNoAny], and
    the subtype relations on types and on schemas.  Everything below is
    stated for an arbitrary implementation of them. *)
Class Collaborators : Type := {
  (** [containsAny(type)], the test of [checkNoAny]. *)
  containsAny : TypePtr → bool;
  (** [Type::python_str()] of a stored or target type. *)
  type_python_str : TypePtr → string;
  (** [ClassType::python_str()] of the receiver. *)
  python_str : ClassType → string;
  (** [toString(type)]. *)
  toString : TypePtr → string;
  (** [operator<<] on [IValue]. *)
  ivalue_str : IValue → string;
  (** [operator<<] on [FunctionSchema]. *)
  schema_str : FunctionSchema → string;
  (** [Type::isSubtypeOf], as [refine] uses it on attribute types. *)
  type_isSubtypeOf : TypePtr → TypePtr → bool;
  (** [FunctionSchema::isSubtypeOf(rhs, is_method, why_not)]: the verdict
      and the text it writes; the last argument tells whether [why_not] is
      non-null. *)
  schema_isSubtypeOf :
    FunctionSchema → FunctionSchema → bool → bool → bool * string;
  (** [Type::isSubtypeOfExt(rhs, why_not)], the rule for targets that are
      not interfaces: the verdict and the text it writes. *)
  Type_isSubtypeOfExt : ClassType → TypePtr → bool → bool * string
}.

(** ** Exceptions and the monad of member functions *)

(** The spec's names for the recoverable failures of [TORCH_CHECK]. *)
Inductive ErrorKind : Type :=
  | NameConflict
  | TypeRejected
  | NotFound
  | IndexOutOfRange.

(** What a call can throw.  [TORCH_CHECK] raises an error carrying the
    concatenated message arguments; [TORCH_INTERNAL_ASSERT] and [AT_ASSERT]
    raise the fatal invariant violation; indexing or erasing a vector out of
    range is undefined in C++ and is kept apart. *)
Inductive exn : Type :=
  | c10_Error (category : ErrorKind) (msg : string)
  | InvariantViolation (msg : string)
  | UndefinedBehaviour.

Inductive outcome (A : Type) : Type :=
  | Returned (a : A)
  | Thrown (e : exn).
Arguments Returned {A} _.
Arguments Thrown {A} _.

(** A member function: from the class type before the call to the outcome
    and the class type after it, also when it throws. *)
Definition M (A : Type) : Type := ClassType → outcome A * ClassType.

Definition ret {A} (a : A) : M A := fun c => (Returned a, c).

Definition bind {A B} (m : M A) (k : A → M B) : M B :=
  fun c =>
    match m c with
    | (Returned a, c') => k a c'
    | (Thrown e, c') => (Thrown e, c')
    end.

Definition throw {A} (e : exn) : M A := fun c => (Thrown e, c).
Definition get : M ClassType := fun c => (Returned c, c).
Definition modify (f : ClassType → ClassType) : M unit :=
  fun c => (Returned tt, f c).

Declare Scope classtype_scope.
Delimit Scope classtype_scope with ct.
Notation "x <- m ;; k" := (bind m (fun x => k))
  (at level 100, m at next level, right associativity) : classtype_scope.
Notation "m ;; k" := (bind m (fun _ => k))
  (at level 100, right associativity) : classtype_scope.
Open Scope classtype_scope.

Definition gets {A} (f : ClassType → A) : M A := fun c => (Returned (f c), c).

(** [TORCH_CHECK(cond, msg...)]: the message arguments are evaluated, and
    concatenated, only on failure. *)
Definition TORCH_CHECK (cond : bool) (category : ErrorKind) (msg : M string)
    : M unit :=
  if cond then ret tt else (s <- msg ;; throw (c10_Error category s)).

(** [TORCH_INTERNAL_ASSERT(cond, msg)] and [AT_ASSERT(cond)]. *)
Definition TORCH_INTERNAL_ASSERT (cond : bool) (msg : string) : M unit :=
  if cond then ret tt else throw (InvariantViolation msg).
Definition AT_ASSERT (cond : bool) (expr : string) : M unit :=
  if cond then ret tt else throw (InvariantViolation expr).

(** [v[i]] on a [std::vector]. *)
Definition vec_at {A} (v : list A) (i : nat) : M A :=
  match v !! i with
  | Some x => ret x
  | None => throw UndefinedBehaviour
  end.

(** [v.erase(v.begin() + i)]: defined only for [i < v.size()]. *)
Definition vec_erase {A} (v : list A) (i : nat) : M (list A) :=
  if decide (i < length v) then ret (delete i v) else throw UndefinedBehaviour.

(** [for (x : xs) body(x)]; with [seq 0 n] for [for (i = 0; i < n; ++i)]. *)
Fixpoint for_each {A} (xs : list A) (body : A → M unit) : M unit :=
  match xs with
  | [] => ret tt
  | x :: xs' => body x ;; for_each xs' body
  end.

(** Field updates. *)
Definition set_attributeNames (v : list string) (c : ClassType) : ClassType :=
  {| name := name c; compilation_unit_ := compilation_unit_ c;
     attributeNames_ := v; attributeTypes_ := attributeTypes_ c;
     parameterSlots_ := parameterSlots_ c;
     constantNames_ := constantNames_ c; constantValues_ := constantValues_ c;
     methods_ := methods_ c |}.

Definition set_attributeTypes (v : list TypePtr) (c : ClassType) : ClassType :=
  {| name := name c; compilation_unit_ := compilation_unit_ c;
     attributeNames_ := attributeNames_ c; attributeTypes_ := v;
     parameterSlots_ := parameterSlots_ c;
     constantNames_ := constantNames_ c; constantValues_ := constantValues_ c;
     methods_ := methods_ c |}.

Definition set_parameterSlots (v : option (list bool)) (c : ClassType)
    : ClassType :=
  {| name := name c; compilation_unit_ := compilation_unit_ c;
     attributeNames_ := attributeNames_ c; attributeTypes_ := attributeTypes_ c;
     parameterSlots_ := v;
     constantNames_ := constantNames_ c; constantValues_ := constantValues_ c;
     methods_ := methods_ c |}.

Definition set_constantNames (v : list string) (c : ClassType) : ClassType :=
  {| name := name c; compilation_unit_ := compilation_unit_ c;
     attributeNames_ := attributeNames_ c; attributeTypes_ := attributeTypes_ c;
     parameterSlots_ := parameterSlots_ c;
     constantNames_ := v; constantValues_ := constantValues_ c;
     methods_ := methods_ c |}.

Definition set_constantValues (v : list IValue) (c : ClassType) : ClassType :=
  {| name := name c; compilation_unit_ := compilation_unit_ c;
     attributeNames_ := attributeNames_ c; attributeTypes_ := attributeTypes_ c;
     parameterSlots_ := parameterSlots_ c;
     constantNames_ := constantNames_ c; constantValues_ := v;
     methods_ := methods_ c |}.

Definition set_methods (v : list Function) (c : ClassType) : ClassType :=
  {| name := name c; compilation_unit_ := compilation_unit_ c;
     attributeNames_ := attributeNames_ c; attributeTypes_ := attributeTypes_ c;
     parameterSlots_ := parameterSlots_ c;
     constantNames_ := constantNames_ c; constantValues_ := constantValues_ c;
     methods_ := v |}.

(** The state after the two [push_back]s of [addAttribute]. *)
Definition pushed (name : string) (type : TypePtr) (c : ClassType) : ClassType :=
  set_attributeTypes (attributeTypes_ c ++ [type])
    (set_attributeNames (attributeNames_ c ++ [name]) c).

(** [refine] builds its result slot by slot: the fresh class type after the
    first [i] attributes have been copied with their replacement types, and
    the one it returns. *)
Definition refining (c : ClassType) (refined_slots : list TypePtr) (i : nat)
    : ClassType :=
  {| name := name c; compilation_unit_ := compilation_unit_ c;
     attributeNames_ := take i (attributeNames_ c);
     attributeTypes_ := take i refined_slots;
     parameterSlots_ := None;
     constantNames_ := []; constantValues_ := [];
     methods_ := [] |}.

Definition refined (c : ClassType) (refined_slots : list TypePtr) : ClassType :=
  {| name := name c; compilation_unit_ := compilation_unit_ c;
     attributeNames_ := attributeNames_ c;
     attributeTypes_ := refined_slots;
     parameterSlots_ := None;
     constantNames_ := []; constantValues_ := [];
     methods_ := methods_ c |}.

Definition nl : string := String (ascii_of_nat 10) EmptyString.

(** ** The member functions *)

Section ClassTypeOps.
Context `{Collaborators}.

(** [ClassType::getMethod]: the first method of that name, or null. *)
Fixpoint getMethod_in (ms : list Function) (name : string) : option Function :=
  match ms with
  | [] => None
  | method :: rest =>
      if decide (name = fn_name method) then Some method
      else getMethod_in rest name
  end.

Definition getMethod (c : ClassType) (name : string) : option Function :=
  getMethod_in (methods_ c) name.

(** The two messages of [checkNotExist]. *)
Definition conflict_with_constant (what name : string) (c : ClassType)
    (existing : IValue) : string :=
  "attempting to add " +:+ what +:+ " '" +:+ name +:+ "' to " +:+ python_str c
  +:+ " but a constant field of the same name already exists with value "
  +:+ ivalue_str existing.

Definition conflict_with_attribute (what name : string) (c : ClassType)
    (existing : TypePtr) : string :=
  "attempting to add " +:+ what +:+ " '" +:+ name +:+ "' to " +:+ python_str c
  +:+ " but an attribute field of the same name already exists with type "
  +:+ type_python_str existing.

(** [ClassType::checkNotExist]: two loops over the indices of the name
    vectors; the function is const, so the bounds are those at entry. *)
Definition checkNotExist (name what : string) : M unit :=
  c <- get ;;
  for_each (seq 0 (length (constantNames_ c))) (fun i =>
    ci <- vec_at (constantNames_ c) i ;;
    TORCH_CHECK (bool_decide (name ≠ ci)) NameConflict
      (v <- vec_at (constantValues_ c) i ;;
       ret (conflict_with_constant what name c v))) ;;
  for_each (seq 0 (length (attributeNames_ c))) (fun i =>
    ai <- vec_at (attributeNames_ c) i ;;
    TORCH_CHECK (bool_decide (name ≠ ai)) NameConflict
      (t <- vec_at (attributeTypes_ c) i ;;
       ret (conflict_with_attribute what name c t))).

(** Modelled from the spec: [checkNoAny] (defined outside this file) rejects
    a declared type that is the catch-all type; which types count is left to
    [containsAny].  The spec does not give the message; it is worded after
    those of [checkNotExist]. *)
Definition contains_any_message (what attrname : string) (attrtype : TypePtr)
    (c : ClassType) : string :=
  "attempting to add " +:+ what +:+ " '" +:+ attrname +:+ "' of type "
  +:+ type_python_str attrtype +:+ " to '" +:+ python_str c
  +:+ "' but it contains an Any type.".

Definition checkNoAny (what attrname : string) (attrtype : TypePtr) : M unit :=
  c <- get ;;
  TORCH_CHECK (negb (containsAny attrtype)) TypeRejected
    (ret (contains_any_message what attrname attrtype c)).

(** The test of the second [TORCH_CHECK] of [addAttribute]. *)
Definition is_parameter_type (type : TypePtr) : bool :=
  bool_decide (kind type = TensorTypeKind)
  || match type with
     | OptionalType elem => bool_decide (kind elem = TensorTypeKind)
     | _ => false
     end
  || bool_decide (kind type = NoneTypeKind).

Definition not_a_module_message : string := "adding a parameter to a non module".

Definition parameter_type_message (type : TypePtr) : string :=
  "Expecting parameter to have either None, Tensor or Optional[Tensor] type, but got: "
  +:+ toString type.

(** [ClassType::addAttribute]. *)
Definition addAttribute (name : string) (type : TypePtr) (is_parameter : bool)
    : M nat :=
  let what := if is_parameter then "parameter" else "attribute" in
  checkNotExist name what ;;
  checkNoAny what name type ;;
  slot <- gets (fun c => length (attributeNames_ c)) ;;
  modify (fun c => set_attributeNames (attributeNames_ c ++ [name]) c) ;;
  modify (fun c => set_attributeTypes (attributeTypes_ c ++ [type]) c) ;;
  (if is_parameter then
     m <- gets is_module ;;
     TORCH_INTERNAL_ASSERT m not_a_module_message ;;
     TORCH_CHECK (is_parameter_type type) TypeRejected
       (ret (parameter_type_message type))
   else ret tt) ;;
  m <- gets is_module ;;
  (if m then
     modify (fun c =>
       set_parameterSlots ((λ v, v ++ [is_parameter]) <$> parameterSlots_ c) c)
   else ret tt) ;;
  ret slot.

(** The index of the first entry equal to [name], counting from [pos]; the
    length of the vector (plus [pos]) when there is none. *)
Fixpoint find_pos (name : string) (names : list string) (pos : nat) : nat :=
  match names with
  | [] => pos
  | c :: rest => if decide (name = c) then pos else find_pos name rest (S pos)
  end.

(** Modelled from the spec: [getAttributeSlot] (defined outside this file)
    looks up the slot of a name and fails with NotFound if absent.  The spec
    does not give the message; it is worded after that of [getConstant]. *)
Definition getAttributeSlot (name : string) : M nat :=
  c <- get ;;
  let slot := find_pos name (attributeNames_ c) 0 in
  TORCH_CHECK (bool_decide (slot < length (attributeNames_ c))) NotFound
    (ret (python_str c +:+ " does not have an attribute with name '"
          +:+ name +:+ "'")) ;;
  ret slot.

(** Modelled from the spec: [getConstantSlot] (defined outside this file),
    symmetric to [getAttributeSlot]. *)
Definition getConstantSlot (name : string) : M nat :=
  c <- get ;;
  let slot := find_pos name (constantNames_ c) 0 in
  TORCH_CHECK (bool_decide (slot < length (constantNames_ c))) NotFound
    (ret (python_str c +:+ " does not have a constant field with the name '"
          +:+ name +:+ "'")) ;;
  ret slot.

(** [ClassType::unsafeRemoveAttribute]. *)
Definition unsafeRemoveAttribute (name : string) : M unit :=
  slot <- getAttributeSlot name ;;
  c <- get ;;
  names <- vec_erase (attributeNames_ c) slot ;;
  modify (set_attributeNames names) ;;
  types <- vec_erase (attributeTypes_ c) slot ;;
  modify (set_attributeTypes types) ;;
  match parameterSlots_ c with
  | Some ps =>
      ps' <- vec_erase ps slot ;;
      modify (set_parameterSlots (Some ps'))
  | None => ret tt
  end.

Definition redefine_message (method : Function) (c : ClassType) : string :=
  "Can't redefine method: " +:+ fn_name method +:+ " on class: " +:+ python_str c.

(** [ClassType::addMethod]. *)
Definition addMethod (method : Function) : M unit :=
  c <- get ;;
  TORCH_CHECK (bool_decide (getMethod c (fn_name method) = None)) NameConflict
    (ret (redefine_message method c)) ;;
  modify (fun c => set_methods (methods_ c ++ [method]) c).

(** [ClassType::addConstant]. *)
Definition addConstant (name : string) (value : IValue) : M nat :=
  checkNotExist name "constant" ;;
  slot <- gets (fun c => length (constantNames_ c)) ;;
  modify (fun c => set_constantNames (constantNames_ c ++ [name]) c) ;;
  modify (fun c => set_constantValues (constantValues_ c ++ [value]) c) ;;
  ret slot.

(** [ClassType::findConstant]. *)
Definition findConstant (name : string) : M (option IValue) :=
  c <- get ;;
  TORCH_INTERNAL_ASSERT
    (bool_decide (length (constantNames_ c) = length (constantValues_ c)))
    "constantNames_.size() == constantValues_.size()" ;;
  let pos := find_pos name (constantNames_ c) 0 in
  if decide (length (constantNames_ c) ≤ pos) then ret None
  else v <- vec_at (constantValues_ c) pos ;; ret (Some v).

(** [ClassType::getConstant(const std::string&)]. *)
Definition getConstant (name : string) : M IValue :=
  c <- get ;;
  v <- findConstant name ;;
  match v with
  | Some x => ret x
  | None =>
      throw (c10_Error NotFound
               (python_str c +:+ " does not have a constant field with name '"
                +:+ name +:+ "'"))
  end.

(** [ClassType::getConstant(size_t)]. *)
Definition getConstant_slot (slot : nat) : M IValue :=
  c <- get ;;
  TORCH_INTERNAL_ASSERT
    (bool_decide (length (constantNames_ c) = length (constantValues_ c)))
    "constantNames_.size() == constantValues_.size()" ;;
  TORCH_CHECK (bool_decide (slot < length (constantValues_ c))) IndexOutOfRange
    (ret (python_str c +:+ " does not have a constant slot of index "
          +:+ pretty slot)) ;;
  vec_at (constantValues_ c) slot.

(** [ClassType::unsafeRemoveConstant]. *)
Definition unsafeRemoveConstant (name : string) : M unit :=
  slot <- getConstantSlot name ;;
  c <- get ;;
  names <- vec_erase (constantNames_ c) slot ;;
  modify (set_constantNames names) ;;
  values <- vec_erase (constantValues_ c) slot ;;
  modify (set_constantValues values).

(** [ClassType::refine]: const on the receiver [c]; the member functions run
    on the fresh [ptr], which is returned when none of them throws. *)
Definition refine_body (c : ClassType) (refined_slots : list TypePtr) : M unit :=
  AT_ASSERT (bool_decide (numAttributes c = length refined_slots))
    "numAttributes() == refined_slots.size()" ;;
  for_each (seq 0 (length (attributeNames_ c))) (fun i =>
    ri <- vec_at refined_slots i ;;
    ti <- vec_at (attributeTypes_ c) i ;;
    AT_ASSERT (type_isSubtypeOf ri ti)
      "refined_slots[i]->isSubtypeOf(attributeTypes_[i])" ;;
    ni <- vec_at (attributeNames_ c) i ;;
    addAttribute ni ri addAttribute_default_is_parameter ;;
    ret tt) ;;
  for_each (methods c) addMethod.

Definition refine (c : ClassType) (refined_slots : list TypePtr)
    : outcome ClassType :=
  let ptr := create (name c) (compilation_unit_ c) create_default_is_module in
  match refine_body c refined_slots ptr with
  | (Returned _, ptr') => Returned ptr'
  | (Thrown e, _) => Thrown e
  end.

(** ** The subtype check *)

(** [std::ostream* why_not]: null, or the text written so far. *)
Definition sink : Type := option string.

Definition emit (text : string) (why_not : sink) : sink :=
  (λ written, written +:+ text) <$> why_not.

Definition has_sink (why_not : sink) : bool :=
  match why_not with Some _ => true | None => false end.

(** The three diagnostics of [isSubtypeOfExt]. *)
Definition module_only_message (c : ClassType) (rhs : TypePtr) : string :=
  "Class '" +:+ python_str c +:+ "' is not a subtype of "
  +:+ "the module interface '" +:+ type_python_str rhs
  +:+ "' , only ScriptModule class can be subtype of module"
  +:+ " interface." +:+ nl.

Definition missing_method_message (c : ClassType) (rhs : TypePtr)
    (schema : FunctionSchema) : string :=
  "Class '" +:+ python_str c +:+ "' does not have method '"
  +:+ schema_name schema +:+ "' but '" +:+ type_python_str rhs
  +:+ "' does." +:+ nl.

Definition incompatible_message (c : ClassType) (rhs : TypePtr)
    (self_method : Function) (schema : FunctionSchema) : string :=
  "Method on class '" +:+ python_str c
  +:+ "' (1) is not compatible with interface '"
  +:+ type_python_str rhs +:+ "' (2)" +:+ nl
  +:+ "  (1) " +:+ schema_str (getSchema self_method) +:+ nl
  +:+ "  (2) " +:+ schema_str schema +:+ nl.

(** The loop of [isSubtypeOfExt] over [iface->methods()]. *)
Fixpoint check_iface_methods (c : ClassType) (rhs : TypePtr)
    (schemas : list FunctionSchema) (why_not : sink) : bool * sink :=
  match schemas with
  | [] => (true, why_not)
  | schema :: rest =>
      match getMethod c (schema_name schema) with
      | None => (false, emit (missing_method_message c rhs schema) why_not)
      | Some self_method =>
          let '(ok, written) :=
            schema_isSubtypeOf (getSchema self_method) schema true
              (has_sink why_not) in
          let why_not := emit written why_not in
          if ok then check_iface_methods c rhs rest why_not
          else
            (false,
             emit (incompatible_message c rhs self_method schema) why_not)
      end
  end.

(** [ClassType::isSubtypeOfExt] (the build without USE_MOBILE_CLASSTYPE). *)
Definition isSubtypeOfExt (c : ClassType) (rhs : TypePtr) (why_not : sink)
    : bool * sink :=
  match cast_InterfaceType rhs with
  | Some iface =>
      if negb (is_module c) && iface_is_module iface then
        (false, emit (module_only_message c rhs) why_not)
      else check_iface_methods c rhs (iface_methods iface) why_not
  | None =>
      let '(ok, written) := Type_isSubtypeOfExt c rhs (has_sink why_not) in
      (ok, emit written why_not)
  end.

(** [isSubtypeOf(rhs)]: the check without a diagnostic sink. *)
Definition isSubtypeOf (c : ClassType) (rhs : TypePtr) : bool :=
  (isSubtypeOfExt c rhs None).1.

End ClassTypeOps.

(** ** Vocabulary of the specification *)

Section Vocabulary.
Context `{Collaborators}.

(** An attribute that [addAttribute] accepts as far as its type goes: no
    catch-all type, and a parameter only on a module and only of tensor,
    optional-tensor or none type. *)
Definition admissible (c : ClassType) (type : TypePtr) (is_parameter : bool)
    : Prop :=
  containsAny type = false
  ∧ (is_parameter = true → is_module c = true ∧ is_parameter_type type = true).

(** The module-flag rule of the subtype check. *)
Definition module_rule (c : ClassType) (iface : InterfaceTypePtr) : Prop :=
  negb (is_module c) && iface_is_module iface = false.

(** The verdict of the loop body on one required method: the class has a
    method of that name and its schema is a subtype in method context. *)
Definition satisfies (c : ClassType) (has_why : bool) (schema : FunctionSchema)
    : bool :=
  match getMethod c (schema_name schema) with
  | Some self_method =>
      (schema_isSubtypeOf (getSchema self_method) schema true has_why).1
  | None => false
  end.

(** The sink after the loop has passed over the satisfied methods [pre]. *)
Definition after_satisfied (c : ClassType) (pre : list FunctionSchema)
    (why_not : sink) : sink :=
  fold_left
    (fun w schema =>
       match getMethod c (schema_name schema) with
       | Some self_method =>
           emit (schema_isSubtypeOf (getSchema self_method) schema true
                   (has_sink w)).2 w
       | None => w
       end)
    pre why_not.

(** The report on one unsatisfied method. *)
Definition report_mismatch (c : ClassType) (rhs : TypePtr)
    (schema : FunctionSchema) (why_not : sink) : sink :=
  match getMethod c (schema_name schema) with
  | None => emit (missing_method_message c rhs schema) why_not
  | Some self_method =>
      emit (incompatible_message c rhs self_method schema)
        (emit (schema_isSubtypeOf (getSchema self_method) schema true
                 (has_sink why_not)).2 why_not)
  end.

End Vocabulary.

(** [needle] occurs in [text]. *)
Definition mentions (text needle : string) : bool :=
  match String.index 0 needle text with Some _ => true | None => false end.

(** The reading of the spec's sentence on diagnostics: a failed check against
    an interface names every required method that is missing or
    incompatible. *)
Definition names_every_mismatch : Prop :=
  ∀ (collab : Collaborators) (c : ClassType) (iface : InterfaceTypePtr)
    (written text : string),
    module_rule c iface →
    isSubtypeOfExt c (InterfaceType iface) (Some written) = (false, Some text) →
    ∀ schema, schema ∈ iface_methods iface →
      satisfies c true schema = false →
      mentions text (schema_name schema) = true.

(** ** Well-formed class types

    The invariants of the spec's data model, as decidable-by-inspection
    properties of the record. *)

(** The parallel sequences have one entry per slot. *)
Definition lengths_ok (c : ClassType) : Prop :=
  length (attributeTypes_ c) = length (attributeNames_ c)
  ∧ (∀ ps, parameterSlots_ c = Some ps → length ps = length (attributeNames_ c))
  ∧ length (constantValues_ c) = length (constantNames_ c).

(** No name is used twice among the attributes or among the methods. *)
Definition names_ok (c : ClassType) : Prop :=
  NoDup (attributeNames_ c) ∧ NoDup (fn_name <$> methods_ c).

(** ** A reference implementation of the collaborators

    A small, executable instance used to run the member functions on
    concrete class types. *)
Module Reference.

Fixpoint contains_any (t : TypePtr) : bool :=
  match t with
  | AnyType => true
  | OptionalType elem => contains_any elem
  | ListType elem => contains_any elem
  | _ => false
  end.

Fixpoint render (t : TypePtr) : string :=
  match t with
  | AnyType => "Any"
  | TensorType => "Tensor"
  | NoneType => "None"
  | IntType => "int"
  | FloatType => "float"
  | BoolType => "bool"
  | StringType => "str"
  | OptionalType elem => "Optional[" +:+ render elem +:+ "]"
  | ListType elem => "List[" +:+ render elem +:+ "]"
  | NamedClassType n => n
  | InterfaceType iface => iface_name iface
  end.

Fixpoint same_type (a b : TypePtr) : bool :=
  match a, b with
  | AnyType, AnyType | TensorType, TensorType | NoneType, NoneType
  | IntType, IntType | FloatType, FloatType | BoolType, BoolType
  | StringType, StringType => true
  | OptionalType x, OptionalType y => same_type x y
  | ListType x, ListType y => same_type x y
  | NamedClassType n, NamedClassType m => bool_decide (n = m)
  | InterfaceType i, InterfaceType j => bool_decide (iface_name i = iface_name j)
  | _, _ => false
  end.

Definition subtype (a b : TypePtr) : bool :=
  same_type a b
  || match b with
     | AnyType => true
     | OptionalType elem => same_type a elem || same_type a NoneType
     | _ => false
     end.

Fixpoint same_types (xs ys : list TypePtr) : bool :=
  match xs, ys with
  | [], [] => true
  | x :: xs', y :: ys' => same_type x y && same_types xs' ys'
  | _, _ => false
  end.

Definition render_value (v : IValue) : string :=
  match v with
  | IVNone => "None"
  | IVBool b => if b then "True" else "False"
  | IVInt z => pretty z
  | IVString s => s
  end.

Definition render_schema (s : FunctionSchema) : string :=
  schema_name s +:+ "(...) -> ("
  +:+ String.concat ", " (render <$> schema_returns s) +:+ ")".

Definition schema_subtype (a b : FunctionSchema) (is_method has_why : bool)
    : bool * string :=
  let skip := if is_method then 1 else 0 in
  if same_types (drop skip (snd <$> schema_arguments a))
       (drop skip (snd <$> schema_arguments b))
     && same_types (schema_returns a) (schema_returns b)
  then (true, "")
  else (false, if has_why then "signature of " +:+ schema_name a
                                +:+ " differs" +:+ nl
               else "").

Definition base_subtype (c : ClassType) (rhs : TypePtr) (has_why : bool)
    : bool * string :=
  match rhs with
  | AnyType => (true, "")
  | NamedClassType n => (bool_decide (name c = Some n), "")
  | _ => (false, "")
  end.

#[export] Instance collaborators : Collaborators := {|
  containsAny := contains_any;
  type_python_str := render;
  python_str c := default "" (name c);
  toString := render;
  ivalue_str := render_value;
  schema_str := render_schema;
  type_isSubtypeOf := subtype;
  schema_isSubtypeOf := schema_subtype;
  Type_isSubtypeOfExt := base_subtype
|}.

(** The running examples of the spec. *)
Definition Point : ClassType :=
  {| name := Some "Point"; compilation_unit_ := 0;
     attributeNames_ := ["x"; "y"]; attributeTypes_ := [FloatType; FloatType];
     parameterSlots_ := None;
     constantNames_ := []; constantValues_ := [];
     methods_ := [] |}.

Definition area_float : FunctionSchema :=
  mkFunctionSchema "area" [("self", NamedClassType "Square")] [FloatType].

Definition Shaped : InterfaceTypePtr :=
  mkInterfaceType "Shaped"
    [mkFunctionSchema "area" [("self", InterfaceType (mkInterfaceType "Shaped" [] false))]
       [FloatType]] false.

Definition Square : ClassType :=
  {| name := Some "Square"; compilation_unit_ := 0;
     attributeNames_ := ["side"]; attributeTypes_ := [FloatType];
     parameterSlots_ := None;
     constantNames_ := []; constantValues_ := [];
     methods_ := [mkFunction 1 "area" area_float] |}.

(** An interface with two required methods. *)
Definition Measured : InterfaceTypePtr :=
  mkInterfaceType "Measured"
    [mkFunctionSchema "area" [("self", NamedClassType "Measured")] [FloatType];
     mkFunctionSchema "perimeter" [("self", NamedClassType "Measured")]
       [FloatType]] false.

(** A module interface. *)
Definition Layer : InterfaceTypePtr :=
  mkInterfaceType "Layer"
    [mkFunctionSchema "forward"
       [("self", NamedClassType "Layer"); ("input", TensorType)] [TensorType]]
    true.

(** A module with a weight parameter, a bias and a constant. *)
Definition Linear : ClassType :=
  {| name := Some "Linear"; compilation_unit_ := 0;
     attributeNames_ := ["weight"; "bias"; "scale"];
     attributeTypes_ := [TensorType; OptionalType TensorType; FloatType];
     parameterSlots_ := Some [true; true; false];
     constantNames_ := ["in_features"]; constantValues_ := [IVInt 4];
     methods_ := [mkFunction 7 "forward"
                    (mkFunctionSchema "forward"
                       [("self", NamedClassType "Linear"); ("input", TensorType)]
                       [TensorType])] |}.

End Reference.

(** ** The owning compilation unit and sequences of calls *)



(** A call of one of the mutators of the class type. *)
Inductive mutation : Type :=
  | AddAttribute (name : string) (type : TypePtr) (is_parameter : bool)
  | AddConstant (name : string) (value : IValue)
  | AddMethod (method : Function)
  | RemoveAttribute (name : string)
  | RemoveConstant (name : string).

(** No attribute and no constant share a name. *)
Definition fields_unique (c : ClassType) : Prop :=
  NoDup (attributeNames_ c ++ constantNames_ c).

Section Calls.
Context `{Collaborators}.

Definition mutate (call : mutation) : M unit :=
  match call with
  | AddAttribute name type is_parameter =>
      addAttribute name type is_parameter ;; ret tt
  | AddConstant name value => addConstant name value ;; ret tt
  | AddMethod method => addMethod method
  | RemoveAttribute name => unsafeRemoveAttribute name
  | RemoveConstant name => unsafeRemoveConstant name
  end.

(** A caller that makes the calls one after the other and goes on after an
    exception; the run has no meaning once a call has undefined behaviour. *)
Fixpoint mutations (calls : list mutation) (c : ClassType) : option ClassType :=
  match calls with
  | [] => Some c
  | call :: rest =>
      match mutate call c with
      | (Thrown UndefinedBehaviour, _) => None
      | (_, c') => mutations rest c'
      end
  end.


End Calls.

(** * Properties *)

Section MonadFacts.

Lemma bind_returned {A B} (m : M A) (k : A → M B) c a c' :
  m c = (Returned a, c') → bind m k c = k a c'.
Proof. intros Hm. unfold bind. by rewrite Hm. Qed.

Lemma bind_thrown {A B} (m : M A) (k : A → M B) c e c' :
  m c = (Thrown e, c') → bind m k c = (Thrown e, c').
Proof. intros Hm. unfold bind. by rewrite Hm. Qed.

Lemma vec_at_Some {A} (v : list A) i x c :
  v !! i = Some x → vec_at v i c = (Returned x, c).
Proof. intros Hx. unfold vec_at. by rewrite Hx. Qed.

Lemma vec_erase_lt {A} (v : list A) i c :
  i < length v → vec_erase v i c = (Returned (delete i v), c).
Proof. intros Hi. unfold vec_erase. by rewrite decide_True. Qed.

End MonadFacts.

(** ** Scanning a name vector *)

Section Scan.

Lemma find_pos_shift name names pos :
  find_pos name names pos = pos + find_pos name names 0.
Proof.
  revert pos. induction names as [|x names IH]; intros pos; simpl.
  - lia.
  - destruct (decide (name = x)); [lia|].
    rewrite (IH (S pos)), (IH 1). lia.
Qed.

Lemma find_pos_lt_iff name names :
  find_pos name names 0 < length names ↔ name ∈ names.
Proof.
  induction names as [|x names IH]; simpl.
  - split; [lia | by intros ?%elem_of_nil].
  - destruct (decide (name = x)) as [->|Hne].
    + split; [intros _; left | lia].
    + rewrite find_pos_shift, elem_of_cons. split.
      * intros Hlt. right. apply IH. lia.
      * intros [?|Hin]; [done|]. apply IH in Hin. lia.
Qed.

Lemma find_pos_lookup name names :
  name ∈ names → names !! find_pos name names 0 = Some name.
Proof.
  induction names as [|x names IH]; simpl.
  - by intros ?%elem_of_nil.
  - destruct (decide (name = x)) as [->|Hne]; [done|].
    intros [?|Hin]%elem_of_cons; [done|].
    rewrite find_pos_shift. simpl. by apply IH.
Qed.

Lemma find_pos_first name names j :
  j < find_pos name names 0 → names !! j ≠ Some name.
Proof.
  revert j. induction names as [|x names IH]; intros j; simpl.
  - lia.
  - destruct (decide (name = x)) as [->|Hne]; [lia|].
    rewrite find_pos_shift. destruct j as [|j]; simpl.
    + intros _ [= ->]. done.
    + intros Hj. apply IH. lia.
Qed.

(** With no duplicate, the slot of a name is the index it is stored at. *)
Lemma find_pos_NoDup name names k :
  NoDup names → names !! k = Some name → find_pos name names 0 = k.
Proof.
  intros Hnd Hk.
  assert (Hin : name ∈ names) by (by eapply list_elem_of_lookup_2).
  eapply NoDup_lookup; [done| |done]. by apply find_pos_lookup.
Qed.

(** A loop of [TORCH_CHECK(name != names[i], ...)] over all indices stops at
    the first index holding [name] and otherwise runs to the end. *)
Lemma for_each_scan_from (all : list string) name category
    (msg : nat → M string) c (rest : list string) (lo : nat) :
  (∀ i, rest !! i = all !! (lo + i)) →
  for_each (seq lo (length rest))
    (fun i => ci <- vec_at all i ;;
              TORCH_CHECK (bool_decide (name ≠ ci)) category (msg i)) c
  = if decide (name ∈ rest)
    then (s <- msg (find_pos name rest lo) ;; throw (c10_Error category s)) c
    else (Returned tt, c).
Proof.
  revert lo. induction rest as [|x rest IH]; intros lo Hrest.
  - rewrite decide_False by apply not_elem_of_nil. done.
  - cbn [length seq for_each find_pos].
    pose proof (Hrest 0) as H0. rewrite Nat.add_0_r in H0. cbn in H0.
    unfold bind at 1. unfold bind at 1.
    rewrite (vec_at_Some all lo x c) by done.
    destruct (decide (name = x)) as [->|Hne].
    + rewrite decide_True by left. unfold TORCH_CHECK.
      rewrite bool_decide_eq_false_2 by (intros Hx; by apply Hx).
      unfold bind, throw. by destruct (msg lo c) as [[s|e] c'].
    + unfold TORCH_CHECK. rewrite bool_decide_eq_true_2 by done.
      unfold ret at 1. rewrite IH.
      * destruct (decide (name ∈ rest)) as [Hin|Hnin].
        -- rewrite decide_True by (by right). done.
        -- rewrite decide_False; [done|].
           intros [?|?]%elem_of_cons; done.
      * intros i. specialize (Hrest (S i)). cbn in Hrest.
        replace (S lo + i) with (lo + S i) by lia. exact Hrest.
Qed.

Lemma for_each_scan (all : list string) name category (msg : nat → M string) c :
  for_each (seq 0 (length all))
    (fun i => ci <- vec_at all i ;;
              TORCH_CHECK (bool_decide (name ≠ ci)) category (msg i)) c
  = if decide (name ∈ all)
    then (s <- msg (find_pos name all 0) ;; throw (c10_Error category s)) c
    else (Returned tt, c).
Proof. by apply for_each_scan_from. Qed.

End Scan.

(** ** The member functions, in closed form *)

Section Operations.
Context `{Collaborators}.

Lemma checkNotExist_eq name what c :
  checkNotExist name what c =
    if decide (name ∈ constantNames_ c) then
      match constantValues_ c !! find_pos name (constantNames_ c) 0 with
      | Some v =>
          (Thrown (c10_Error NameConflict
                     (conflict_with_constant what name c v)), c)
      | None => (Thrown UndefinedBehaviour, c)
      end
    else if decide (name ∈ attributeNames_ c) then
      match attributeTypes_ c !! find_pos name (attributeNames_ c) 0 with
      | Some t =>
          (Thrown (c10_Error NameConflict
                     (conflict_with_attribute what name c t)), c)
      | None => (Thrown UndefinedBehaviour, c)
      end
    else (Returned tt, c).
Proof.
  unfold checkNotExist. unfold bind at 1. unfold get at 1.
  unfold bind at 1. rewrite for_each_scan.
  destruct (decide (name ∈ constantNames_ c)) as [Hc|Hc].
  - unfold bind, vec_at, throw, ret.
    by destruct (constantValues_ c !! _).
  - rewrite for_each_scan.
    destruct (decide (name ∈ attributeNames_ c)) as [Ha|Ha]; [|done].
    unfold bind, vec_at, throw, ret.
    by destruct (attributeTypes_ c !! _).
Qed.

(** [checkNotExist] is const. *)
Lemma checkNotExist_const name what c : (checkNotExist name what c).2 = c.
Proof.
  rewrite checkNotExist_eq.
  repeat (case_decide || case_match); done.
Qed.

Lemma checkNotExist_fresh name what c :
  name ∉ constantNames_ c → name ∉ attributeNames_ c →
  checkNotExist name what c = (Returned tt, c).
Proof.
  intros Hc Ha. rewrite checkNotExist_eq. by rewrite !decide_False.
Qed.

Lemma checkNotExist_returns name what c u c' :
  checkNotExist name what c = (Returned u, c') →
  (name ∉ constantNames_ c) ∧ (name ∉ attributeNames_ c) ∧ c' = c.
Proof.
  rewrite checkNotExist_eq.
  repeat (case_decide || case_match); naive_solver.
Qed.

Lemma addAttribute_eq name type (is_parameter : bool) c :
  let what : string := if is_parameter then "parameter" else "attribute" in
  addAttribute name type is_parameter c =
    match checkNotExist name what c with
    | (Thrown e, _) => (Thrown e, c)
    | (Returned _, _) =>
        if containsAny type then
          (Thrown (c10_Error TypeRejected
                     (contains_any_message what name type c)), c)
        else if is_parameter && negb (is_module c) then
          (Thrown (InvariantViolation not_a_module_message), pushed name type c)
        else if is_parameter && negb (is_parameter_type type) then
          (Thrown (c10_Error TypeRejected (parameter_type_message type)),
           pushed name type c)
        else
          (Returned (length (attributeNames_ c)),
           set_parameterSlots
             ((λ v, v ++ [is_parameter]) <$> parameterSlots_ c)
             (pushed name type c))
    end.
Proof.
  intros what. unfold addAttribute. fold what. unfold bind at 1.
  pose proof (checkNotExist_const name what c) as Hconst.
  destruct (checkNotExist name what c) as [[[]|e] c0]; simpl in Hconst; subst c0;
    [|done].
  unfold bind at 1, checkNoAny, bind at 1, get at 1, TORCH_CHECK.
  destruct (containsAny type); cbn [negb]; [done|].
  destruct c as [n cu an at_ ps cn cv ms].
  destruct is_parameter, ps as [ps|], (is_parameter_type type); reflexivity.
Qed.

Lemma addConstant_eq name value c :
  addConstant name value c =
    match checkNotExist name "constant" c with
    | (Thrown e, _) => (Thrown e, c)
    | (Returned _, _) =>
        (Returned (length (constantNames_ c)),
         set_constantValues (constantValues_ c ++ [value])
           (set_constantNames (constantNames_ c ++ [name]) c))
    end.
Proof.
  unfold addConstant. unfold bind at 1.
  pose proof (checkNotExist_const name "constant" c) as Hconst.
  by destruct (checkNotExist name "constant" c) as [[[]|e] c0];
    simpl in Hconst; subst c0.
Qed.

Lemma addMethod_eq method c :
  addMethod method c =
    match getMethod c (fn_name method) with
    | None => (Returned tt, set_methods (methods_ c ++ [method]) c)
    | Some _ =>
        (Thrown (c10_Error NameConflict (redefine_message method c)), c)
    end.
Proof.
  unfold addMethod, bind, get, TORCH_CHECK.
  by destruct (getMethod c (fn_name method)).
Qed.

Lemma getAttributeSlot_eq name c :
  getAttributeSlot name c =
    if decide (name ∈ attributeNames_ c)
    then (Returned (find_pos name (attributeNames_ c) 0), c)
    else (Thrown (c10_Error NotFound
                    (python_str c +:+ " does not have an attribute with name '"
                     +:+ name +:+ "'")), c).
Proof.
  unfold getAttributeSlot, bind, get, TORCH_CHECK.
  destruct (decide (name ∈ attributeNames_ c)) as [Hin|Hin].
  - by rewrite bool_decide_eq_true_2 by (by apply find_pos_lt_iff).
  - by rewrite bool_decide_eq_false_2 by (by rewrite find_pos_lt_iff).
Qed.

Lemma getConstantSlot_eq name c :
  getConstantSlot name c =
    if decide (name ∈ constantNames_ c)
    then (Returned (find_pos name (constantNames_ c) 0), c)
    else (Thrown (c10_Error NotFound
                    (python_str c
                     +:+ " does not have a constant field with the name '"
                     +:+ name +:+ "'")), c).
Proof.
  unfold getConstantSlot, bind, get, TORCH_CHECK.
  destruct (decide (name ∈ constantNames_ c)) as [Hin|Hin].
  - by rewrite bool_decide_eq_true_2 by (by apply find_pos_lt_iff).
  - by rewrite bool_decide_eq_false_2 by (by rewrite find_pos_lt_iff).
Qed.

(** On a class type whose parallel sequences agree in length, removing a
    stored attribute erases its slot from each of them. *)
Lemma unsafeRemoveAttribute_eq name c :
  lengths_ok c → name ∈ attributeNames_ c →
  let k := find_pos name (attributeNames_ c) 0 in
  unsafeRemoveAttribute name c =
    (Returned tt,
     set_parameterSlots (delete k <$> parameterSlots_ c)
       (set_attributeTypes (delete k (attributeTypes_ c))
          (set_attributeNames (delete k (attributeNames_ c)) c))).
Proof.
  intros (Hty & Hps & _) Hin k.
  assert (Hk : k < length (attributeNames_ c)) by (by apply find_pos_lt_iff).
  unfold unsafeRemoveAttribute. unfold bind at 1.
  rewrite getAttributeSlot_eq, decide_True by done. fold k.
  unfold bind at 1, get at 1. unfold bind at 1.
  rewrite vec_erase_lt by done.
  unfold bind at 1, modify at 1. unfold bind at 1.
  rewrite vec_erase_lt by lia.
  unfold bind at 1, modify at 1.
  destruct c as [n cu an at_ ps cn cv ms]; simpl in *.
  destruct ps as [ps|]; [|done].
  unfold bind. rewrite vec_erase_lt by (rewrite (Hps ps); done). done.
Qed.

Lemma unsafeRemoveConstant_eq name c :
  lengths_ok c → name ∈ constantNames_ c →
  let k := find_pos name (constantNames_ c) 0 in
  unsafeRemoveConstant name c =
    (Returned tt,
     set_constantValues (delete k (constantValues_ c))
       (set_constantNames (delete k (constantNames_ c)) c)).
Proof.
  intros (_ & _ & Hcv) Hin k.
  assert (Hk : k < length (constantNames_ c)) by (by apply find_pos_lt_iff).
  unfold unsafeRemoveConstant. unfold bind at 1.
  rewrite getConstantSlot_eq, decide_True by done. fold k.
  unfold bind at 1, get at 1. unfold bind at 1.
  rewrite vec_erase_lt by done.
  unfold bind at 1, modify at 1. unfold bind at 1.
  rewrite vec_erase_lt by lia. done.
Qed.

(** *** Methods *)

Lemma getMethod_in_Some ms name m :
  getMethod_in ms name = Some m → m ∈ ms ∧ fn_name m = name.
Proof.
  induction ms as [|x ms IH]; simpl; [done|].
  destruct (decide (name = fn_name x)) as [->|Hne].
  - intros [= ->]. split; [left | done].
  - intros [Hin Hn]%IH. split; [by right | done].
Qed.

Lemma getMethod_in_None ms name :
  getMethod_in ms name = None ↔ name ∉ fn_name <$> ms.
Proof.
  induction ms as [|x ms IH]; simpl.
  - split; [intros _; apply not_elem_of_nil | done].
  - rewrite not_elem_of_cons, <- IH.
    destruct (decide (name = fn_name x)) as [Heq|Hne].
    + split; [done | by intros [? _]].
    + split; [done | by intros [_ ?]].
Qed.

Lemma getMethod_in_NoDup ms m :
  NoDup (fn_name <$> ms) → m ∈ ms → getMethod_in ms (fn_name m) = Some m.
Proof.
  induction ms as [|x ms IH]; simpl.
  - by intros _ ?%elem_of_nil.
  - intros [Hx Hnd]%NoDup_cons [->|Hin]%elem_of_cons.
    + by rewrite decide_True.
    + rewrite decide_False; [by apply IH|].
      intros Heq. apply Hx. rewrite <- Heq. by apply list_elem_of_fmap_2.
Qed.

Lemma getMethod_in_insert l1 extra l2 name :
  fn_name extra ≠ name →
  getMethod_in (l1 ++ extra :: l2) name = getMethod_in (l1 ++ l2) name.
Proof.
  intros Hne. induction l1 as [|x l1 IH]; simpl.
  - by rewrite decide_False.
  - by rewrite IH.
Qed.

(** Copying a list of distinctly named methods appends all of them. *)
Lemma for_each_addMethod ms c :
  NoDup (fn_name <$> (methods_ c ++ ms)) →
  for_each ms addMethod c = (Returned tt, set_methods (methods_ c ++ ms) c).
Proof.
  revert c. induction ms as [|m ms IH]; intros c Hnd; simpl.
  - rewrite app_nil_r. by destruct c.
  - unfold bind. rewrite addMethod_eq.
    assert (Hfresh : getMethod c (fn_name m) = None).
    { apply getMethod_in_None. rewrite fmap_app, fmap_cons in Hnd.
      apply NoDup_app in Hnd as (_ & Hdisj & _).
      intros Hin. apply (Hdisj _ Hin). left. }
    rewrite Hfresh, IH.
    + destruct c; simpl. by rewrite <- app_assoc.
    + destruct c; simpl in *. by rewrite <- app_assoc.
Qed.

(** *** [refine] *)

(** One iteration of the attribute loop of [refine] at a slot whose
    replacement is accepted. *)
Lemma refine_step c ts i t a n :
  NoDup (attributeNames_ c) →
  ts !! i = Some t → attributeTypes_ c !! i = Some a →
  attributeNames_ c !! i = Some n →
  type_isSubtypeOf t a = true → containsAny t = false →
  (ri <- vec_at ts i ;;
   ti <- vec_at (attributeTypes_ c) i ;;
   AT_ASSERT (type_isSubtypeOf ri ti)
     "refined_slots[i]->isSubtypeOf(attributeTypes_[i])" ;;
   ni <- vec_at (attributeNames_ c) i ;;
   addAttribute ni ri addAttribute_default_is_parameter ;;
   ret tt) (refining c ts i)
  = (Returned tt, refining c ts (S i)).
Proof.
  intros Hnd Ht Ha Hn Hsub Hany.
  unfold bind at 1. rewrite (vec_at_Some _ _ _ _ Ht).
  unfold bind at 1. rewrite (vec_at_Some _ _ _ _ Ha).
  unfold bind at 1, AT_ASSERT. rewrite Hsub. unfold ret at 1.
  unfold bind at 1. rewrite (vec_at_Some _ _ _ _ Hn).
  unfold bind. rewrite addAttribute_eq, checkNotExist_fresh.
  - rewrite Hany. unfold addAttribute_default_is_parameter. cbn [andb].
    unfold ret, refining, pushed. cbn.
    by rewrite (take_S_r _ _ _ Hn), (take_S_r _ _ _ Ht).
  - cbn. apply not_elem_of_nil.
  - cbn. rewrite elem_of_take. intros (j & Hj & Hlt).
    pose proof (NoDup_lookup _ _ _ _ Hnd Hj Hn). lia.
Qed.

Lemma refine_loop_ok c ts k lo :
  NoDup (attributeNames_ c) →
  length ts = length (attributeNames_ c) →
  length (attributeTypes_ c) = length (attributeNames_ c) →
  lo + k ≤ length (attributeNames_ c) →
  Forall2 (λ t a, type_isSubtypeOf t a = true) ts (attributeTypes_ c) →
  Forall (λ t, containsAny t = false) ts →
  for_each (seq lo k) (fun i =>
    ri <- vec_at ts i ;;
    ti <- vec_at (attributeTypes_ c) i ;;
    AT_ASSERT (type_isSubtypeOf ri ti)
      "refined_slots[i]->isSubtypeOf(attributeTypes_[i])" ;;
    ni <- vec_at (attributeNames_ c) i ;;
    addAttribute ni ri addAttribute_default_is_parameter ;;
    ret tt) (refining c ts lo)
  = (Returned tt, refining c ts (lo + k)).
Proof.
  intros Hnd Hlen Hlen' Hk Hsub Hany. revert lo Hk.
  induction k as [|k IH]; intros lo Hk.
  - by rewrite Nat.add_0_r.
  - cbn [seq for_each].
    destruct (lookup_lt_is_Some_2 ts lo) as [t Ht]; [lia|].
    destruct (lookup_lt_is_Some_2 (attributeTypes_ c) lo) as [a Ha]; [lia|].
    destruct (lookup_lt_is_Some_2 (attributeNames_ c) lo) as [n Hn]; [lia|].
    unfold bind at 1.
    rewrite (refine_step c ts lo t a n); try done.
    + rewrite IH by lia. by replace (S lo + k) with (lo + S k) by lia.
    + by apply (Forall2_lookup_lr _ _ _ _ _ _ Hsub Ht Ha).
    + by apply (proj1 (Forall_lookup _ _) Hany lo t).
Qed.

(** A replacement that is not a subtype stops the loop with the assertion. *)
Lemma refine_loop_fails c ts k lo i t a :
  NoDup (attributeNames_ c) →
  length ts = length (attributeNames_ c) →
  length (attributeTypes_ c) = length (attributeNames_ c) →
  lo + k ≤ length (attributeNames_ c) →
  Forall (λ t, containsAny t = false) ts →
  lo ≤ i < lo + k →
  ts !! i = Some t → attributeTypes_ c !! i = Some a →
  type_isSubtypeOf t a = false →
  ∃ c', for_each (seq lo k) (fun i =>
    ri <- vec_at ts i ;;
    ti <- vec_at (attributeTypes_ c) i ;;
    AT_ASSERT (type_isSubtypeOf ri ti)
      "refined_slots[i]->isSubtypeOf(attributeTypes_[i])" ;;
    ni <- vec_at (attributeNames_ c) i ;;
    addAttribute ni ri addAttribute_default_is_parameter ;;
    ret tt) (refining c ts lo)
  = (Thrown (InvariantViolation
               "refined_slots[i]->isSubtypeOf(attributeTypes_[i])"), c').
Proof.
  intros Hnd Hlen Hlen' Hk Hany Hi Ht Ha Hsub. revert lo Hk Hi.
  induction k as [|k IH]; intros lo Hk Hi; [lia|].
  cbn [seq for_each].
  destruct (lookup_lt_is_Some_2 ts lo) as [t0 Ht0]; [lia|].
  destruct (lookup_lt_is_Some_2 (attributeTypes_ c) lo) as [a0 Ha0]; [lia|].
  destruct (lookup_lt_is_Some_2 (attributeNames_ c) lo) as [n0 Hn0]; [lia|].
  destruct (type_isSubtypeOf t0 a0) eqn:Hsub0.
  - unfold bind at 1.
    rewrite (refine_step c ts lo t0 a0 n0); try done.
    + apply IH; [lia|].
      destruct (decide (i = lo)) as [->|]; [congruence | lia].
    + by apply (proj1 (Forall_lookup _ _) Hany lo t0).
  - eexists. unfold bind at 1. unfold bind at 1.
    rewrite (vec_at_Some _ _ _ _ Ht0).
    unfold bind at 1. rewrite (vec_at_Some _ _ _ _ Ha0).
    unfold bind at 1, AT_ASSERT. rewrite Hsub0. reflexivity.
Qed.

(** [refine] in closed form on accepted replacements. *)
Lemma refine_ok c ts :
  lengths_ok c → names_ok c →
  length ts = numAttributes c →
  Forall2 (λ t a, type_isSubtypeOf t a = true) ts (attributeTypes_ c) →
  Forall (λ t, containsAny t = false) ts →
  refine c ts = Returned (refined c ts).
Proof.
  intros (Hty & _ & _) (Hnd & Hms) Hlen Hsub Hany.
  unfold numAttributes in Hlen.
  unfold refine, refine_body.
  change (create (name c) (compilation_unit_ c) create_default_is_module)
    with (refining c ts 0).
  rewrite (bind_returned _ _ _ tt (refining c ts 0)); last first.
  { unfold AT_ASSERT, numAttributes. by rewrite bool_decide_eq_true_2. }
  rewrite (bind_returned _ _ _ tt
             (refining c ts (0 + length (attributeNames_ c)))); last first.
  { by apply refine_loop_ok. }
  rewrite for_each_addMethod; [|done].
  unfold refining, refined, set_methods, methods.
  rewrite !take_ge by (cbn [Nat.add]; lia). done.
Qed.

(** *** The loop of the subtype check *)

Lemma has_sink_emit text why_not : has_sink (emit text why_not) = has_sink why_not.
Proof. by destruct why_not. Qed.

(** The verdict of the loop is that of its body on every required method. *)
Lemma check_iface_methods_verdict c rhs schemas why_not :
  (check_iface_methods c rhs schemas why_not).1
  = forallb (satisfies c (has_sink why_not)) schemas.
Proof.
  revert why_not. induction schemas as [|schema rest IH]; intros why_not; [done|].
  cbn [check_iface_methods forallb]. unfold satisfies at 1.
  destruct (getMethod c (schema_name schema)) as [m|]; [|done].
  destruct (schema_isSubtypeOf (getSchema m) schema true (has_sink why_not))
    as [[] written]; cbn [fst andb]; [|done].
  by rewrite IH, has_sink_emit.
Qed.

(** A failed loop stopped at the first unsatisfied method and reported it,
    and nothing after it. *)
Lemma check_iface_methods_stops c rhs schemas why_not :
  (check_iface_methods c rhs schemas why_not).1 = false →
  ∃ pre schema post,
    schemas = pre ++ schema :: post
    ∧ Forall (λ s, satisfies c (has_sink why_not) s = true) pre
    ∧ satisfies c (has_sink why_not) schema = false
    ∧ check_iface_methods c rhs schemas why_not
      = (false, report_mismatch c rhs schema (after_satisfied c pre why_not)).
Proof.
  revert why_not. induction schemas as [|schema rest IH]; intros why_not; [done|].
  cbn [check_iface_methods].
  destruct (getMethod c (schema_name schema)) as [m|] eqn:Hm.
  - destruct (schema_isSubtypeOf (getSchema m) schema true (has_sink why_not))
      as [ok written] eqn:Hsub.
    destruct ok.
    + intros (pre & bad & post & -> & Hpre & Hbad & Heq)%IH.
      rewrite has_sink_emit in Hpre, Hbad.
      exists (schema :: pre), bad, post. split_and!; [done| |done|].
      * constructor; [|done]. unfold satisfies. by rewrite Hm, Hsub.
      * rewrite Heq. cbn [after_satisfied fold_left]. by rewrite Hm, Hsub.
    + intros _. exists [], schema, rest. split_and!; [done|done| |].
      * unfold satisfies. by rewrite Hm, Hsub.
      * unfold report_mismatch. cbn [after_satisfied fold_left].
        by rewrite Hm, Hsub.
  - intros _. exists [], schema, rest. split_and!; [done|done| |].
    + unfold satisfies. by rewrite Hm.
    + unfold report_mismatch. cbn [after_satisfied fold_left]. by rewrite Hm.
Qed.

Lemma isSubtypeOf_iface c iface :
  module_rule c iface →
  isSubtypeOf c (InterfaceType iface)
  = forallb (satisfies c false) (iface_methods iface).
Proof.
  unfold module_rule, isSubtypeOf, isSubtypeOfExt. cbn [cast_InterfaceType].
  intros ->. apply check_iface_methods_verdict.
Qed.

End Operations.

(** ** Failing adds and the sequences *)

Section Atomicity.
Context `{Collaborators}.

(** A failing [addConstant] leaves the class type as it was. *)
Lemma addConstant_thrown_unchanged name value c e c' :
  addConstant name value c = (Thrown e, c') → c' = c.
Proof.
  rewrite addConstant_eq.
  destruct (checkNotExist name "constant" c) as [[[]|e0] c0]; congruence.
Qed.

(** A failing [addMethod] leaves the class type as it was. *)
Lemma addMethod_thrown_unchanged method c e c' :
  addMethod method c = (Thrown e, c') → c' = c.
Proof.
  rewrite addMethod_eq. destruct (getMethod c (fn_name method)); congruence.
Qed.

(** So does a failing [addAttribute] of an attribute that is not a
    parameter: its checks all precede the appends. *)
Lemma addAttribute_thrown_unchanged name type c e c' :
  addAttribute name type false c = (Thrown e, c') → c' = c.
Proof.
  rewrite addAttribute_eq. cbn [andb].
  destruct (checkNotExist name "attribute" c) as [[[]|e0] c0];
    destruct (containsAny type); congruence.
Qed.

(** The two parameter checks come after the appends: when one of them fails
    the name and the type stay appended. *)
Lemma addAttribute_parameter_thrown name type c :
  name ∉ constantNames_ c → name ∉ attributeNames_ c →
  containsAny type = false →
  is_module c = false ∨ is_parameter_type type = false →
  ∃ e, addAttribute name type true c = (Thrown e, pushed name type c)
       ∧ attributeNames_ (pushed name type c) = attributeNames_ c ++ [name]
       ∧ attributeTypes_ (pushed name type c) = attributeTypes_ c ++ [type]
       ∧ parameterSlots_ (pushed name type c) = parameterSlots_ c.
Proof.
  intros Hc Ha Hany Hbad. rewrite addAttribute_eq, checkNotExist_fresh by done.
  rewrite Hany. cbn [andb].
  destruct (is_module c) eqn:Hm; cbn [negb].
  - destruct Hbad as [|Hpt]; [done|]. rewrite Hpt. cbn [negb]. by eexists.
  - by eexists.
Qed.

End Atomicity.

(** ** The lengths of the parallel sequences *)

Section Lengths.
Context `{Collaborators}.

Lemma create_lengths_ok qualifiedName cu is_module :
  lengths_ok (create qualifiedName cu is_module).
Proof.
  split_and!; [done| |done]. cbn. intros ps. by destruct is_module; intros [= <-].
Qed.

Lemma addAttribute_returned_lengths_ok name type is_parameter c slot c' :
  lengths_ok c →
  addAttribute name type is_parameter c = (Returned slot, c') → lengths_ok c'.
Proof.
  intros (Hty & Hps & Hcv). rewrite addAttribute_eq.
  destruct (checkNotExist _ _ c) as [[[]|e0] c0]; [|done].
  destruct (containsAny type); [done|].
  destruct (is_parameter && negb (is_module c)); [done|].
  destruct (is_parameter && negb (is_parameter_type type)); [done|].
  intros [= _ <-]. split_and!; cbn.
  - rewrite !length_app. cbn. lia.
  - intros ps'. destruct (parameterSlots_ c) as [ps|]; [|done].
    intros [= <-]. rewrite !length_app, (Hps ps) by done. done.
  - done.
Qed.

Lemma addConstant_lengths_ok name value c :
  lengths_ok c → lengths_ok (addConstant name value c).2.
Proof.
  intros (Hty & Hps & Hcv). rewrite addConstant_eq.
  destruct (checkNotExist _ _ c) as [[[]|e0] c0]; [|done].
  split_and!; cbn; [done|done|]. rewrite !length_app. cbn. lia.
Qed.

Lemma addMethod_lengths_ok method c :
  lengths_ok c → lengths_ok (addMethod method c).2.
Proof.
  intros Hok. rewrite addMethod_eq. by destruct (getMethod c (fn_name method)).
Qed.

Lemma unsafeRemoveAttribute_lengths_ok name c :
  lengths_ok c → lengths_ok (unsafeRemoveAttribute name c).2.
Proof.
  intros Hok. destruct (decide (name ∈ attributeNames_ c)) as [Hin|Hin].
  - rewrite unsafeRemoveAttribute_eq by done.
    destruct Hok as (Hty & Hps & Hcv).
    pose proof (proj2 (find_pos_lt_iff _ _) Hin) as Hk.
    split_and!; cbn.
    + rewrite !length_delete; [lia|apply lookup_lt_is_Some_2; lia..].
    + intros ps'. destruct (parameterSlots_ c) as [ps|]; [|done].
      intros [= <-]. specialize (Hps ps eq_refl).
      rewrite !length_delete; [lia|apply lookup_lt_is_Some_2; lia..].
    + done.
  - unfold unsafeRemoveAttribute, bind.
    by rewrite getAttributeSlot_eq, decide_False.
Qed.

Lemma unsafeRemoveConstant_lengths_ok name c :
  lengths_ok c → lengths_ok (unsafeRemoveConstant name c).2.
Proof.
  intros Hok. destruct (decide (name ∈ constantNames_ c)) as [Hin|Hin].
  - rewrite unsafeRemoveConstant_eq by done.
    destruct Hok as (Hty & Hps & Hcv).
    pose proof (proj2 (find_pos_lt_iff _ _) Hin) as Hk.
    split_and!; cbn; [done|done|].
    rewrite !length_delete; [lia|apply lookup_lt_is_Some_2; lia..].
  - unfold unsafeRemoveConstant, bind.
    by rewrite getConstantSlot_eq, decide_False.
Qed.

(** A failing [addAttribute] keeps the lengths in step unless it is the
    parameter-type check on a module that fails. *)
Lemma addAttribute_thrown_lengths_ok name type is_parameter c e c' :
  lengths_ok c →
  is_parameter = false ∨ is_module c = false →
  addAttribute name type is_parameter c = (Thrown e, c') → lengths_ok c'.
Proof.
  intros (Hty & Hps & Hcv) Hcase. rewrite addAttribute_eq.
  destruct (checkNotExist _ _ c) as [[[]|e0] c0]; [|by intros [= _ <-]].
  destruct (containsAny type); [by intros [= _ <-]|].
  destruct Hcase as [->|Hm]; [done|].
  assert (Hnone : parameterSlots_ c = None).
  { unfold is_module in Hm. by destruct (parameterSlots_ c). }
  assert (lengths_ok (pushed name type c)).
  { split_and!; cbn; [|by rewrite Hnone|done]. rewrite !length_app. cbn. lia. }
  destruct (is_parameter && negb (is_module c)); [by intros [= _ <-]|].
  destruct (is_parameter && negb (is_parameter_type type)); [by intros [= _ <-]|].
  done.
Qed.

End Lengths.

(** ** The subtype check against an interface *)

Section Subtyping.
Context `{Collaborators}.

(** C4. A class that is not a module is never a subtype of a module
    interface, whatever its methods are; with a diagnostic sink the reason
    written says that only a module class can be a subtype of a module
    interface. *)
Theorem non_module_class_vs_module_interface c iface why_not :
  is_module c = false → iface_is_module iface = true →
  isSubtypeOf c (InterfaceType iface) = false
  ∧ isSubtypeOfExt c (InterfaceType iface) why_not
    = (false,
       emit ("Class '" +:+ python_str c
             +:+ "' is not a subtype of the module interface '"
             +:+ type_python_str (InterfaceType iface)
             +:+ "' , only ScriptModule class can be subtype of module interface."
             +:+ nl) why_not).
Proof.
  intros Hc Hi. unfold isSubtypeOf, isSubtypeOfExt. cbn [cast_InterfaceType].
  by rewrite Hc, Hi.
Qed.

(** C5. Under the module-flag rule the check holds exactly when every
    required signature has a same-named method on the class whose schema is
    a subtype of it in method context; an interface without required methods
    is satisfied; a method of the class that the interface does not require
    does not change the verdict. *)
Theorem isSubtypeOf_interface_iff c iface :
  module_rule c iface → names_ok c →
  (isSubtypeOf c (InterfaceType iface) = true ↔
     Forall (λ schema,
         ∃ m, m ∈ methods c ∧ fn_name m = schema_name schema
              ∧ (schema_isSubtypeOf (getSchema m) schema true false).1 = true)
       (iface_methods iface))
  ∧ (iface_methods iface = [] → isSubtypeOf c (InterfaceType iface) = true)
  ∧ (∀ l1 extra l2,
       methods c = l1 ++ l2 →
       fn_name extra ∉ schema_name <$> iface_methods iface →
       isSubtypeOf (set_methods (l1 ++ extra :: l2) c) (InterfaceType iface)
       = isSubtypeOf c (InterfaceType iface)).
Proof.
  intros Hrule [_ Hnd]. split_and!.
  - rewrite isSubtypeOf_iface by done.
    rewrite <- Is_true_true, forallb_True.
    apply Forall_proper; [|done]. intros schema.
    unfold satisfies, getMethod, methods. split.
    + destruct (getMethod_in (methods_ c) (schema_name schema)) as [m|] eqn:Hm;
        [|done].
      apply getMethod_in_Some in Hm as [Hin Hname].
      intros Hsub%Is_true_true. by exists m.
    + intros (m & Hin & Hname & Hsub).
      rewrite <- Hname, (getMethod_in_NoDup _ _ Hnd Hin). by rewrite Hsub.
  - intros Hnil. rewrite isSubtypeOf_iface by done. by rewrite Hnil.
  - intros l1 extra l2 Hms Hextra.
    rewrite !isSubtypeOf_iface by done.
    unfold methods in Hms.
    induction (iface_methods iface) as [|schema rest IH]; [done|].
    rewrite fmap_cons, not_elem_of_cons in Hextra. destruct Hextra as [Hne Hrest].
    cbn [forallb]. rewrite IH by done. f_equal.
    unfold satisfies, getMethod. cbn [methods_ set_methods].
    by rewrite getMethod_in_insert, Hms.
Qed.

(** C2 (amended). When the check against an interface fails on the methods,
    the text written to the sink reports one method only: the first required
    method, in the interface's order, that is missing on the class or whose
    signature is incompatible.  The required methods before it were
    satisfied; those after it are neither checked nor reported. *)
Theorem isSubtypeOfExt_reports_first_mismatch c iface written :
  module_rule c iface →
  (isSubtypeOfExt c (InterfaceType iface) (Some written)).1 = false →
  ∃ pre schema post,
    iface_methods iface = pre ++ schema :: post
    ∧ Forall (λ s, satisfies c true s = true) pre
    ∧ satisfies c true schema = false
    ∧ isSubtypeOfExt c (InterfaceType iface) (Some written)
      = (false,
         report_mismatch c (InterfaceType iface) schema
           (after_satisfied c pre (Some written))).
Proof.
  unfold module_rule, isSubtypeOfExt. cbn [cast_InterfaceType].
  intros ->. apply check_iface_methods_stops.
Qed.

End Subtyping.

(** C4 at a concrete input: [Point] against the module interface [Layer]. *)
Lemma non_module_class_vs_module_interface_witness :
  isSubtypeOf (H := Reference.collaborators) Reference.Point
    (InterfaceType Reference.Layer) = false
  ∧ isSubtypeOfExt (H := Reference.collaborators) Reference.Point
      (InterfaceType Reference.Layer) (Some "")
    = (false,
       Some ("Class 'Point' is not a subtype of the module interface 'Layer'"
             +:+ " , only ScriptModule class can be subtype of module interface."
             +:+ nl)).
Proof.
  apply (non_module_class_vs_module_interface
           (H := Reference.collaborators) Reference.Point Reference.Layer
           (Some "")); reflexivity.
Defined.

(** C5 at a concrete input: [Square], whose [area] returns a float,
    against [Shaped]. *)
Lemma isSubtypeOf_interface_iff_witness :
  let c := Reference.Square in
  let iface := Reference.Shaped in
  (isSubtypeOf (H := Reference.collaborators) c (InterfaceType iface) = true ↔
     Forall (λ schema,
         ∃ m, m ∈ methods c ∧ fn_name m = schema_name schema
              ∧ (schema_isSubtypeOf (Collaborators := Reference.collaborators)
                   (getSchema m) schema true false).1 = true)
       (iface_methods iface))
  ∧ (iface_methods iface = [] →
     isSubtypeOf (H := Reference.collaborators) c (InterfaceType iface) = true)
  ∧ (∀ l1 extra l2,
       methods c = l1 ++ l2 →
       fn_name extra ∉ schema_name <$> iface_methods iface →
       isSubtypeOf (H := Reference.collaborators)
         (set_methods (l1 ++ extra :: l2) c) (InterfaceType iface)
       = isSubtypeOf (H := Reference.collaborators) c (InterfaceType iface)).
Proof.
  apply (isSubtypeOf_interface_iff (H := Reference.collaborators)
           Reference.Square Reference.Shaped).
  - reflexivity.
  - unfold names_ok. cbn. split; compute_done.
Defined.

(** C2, as the spec states it, fails: [Point] has neither [area] nor
    [perimeter], and the text written against [Measured] names [area]
    only. *)
Lemma names_every_mismatch_fails : ¬ names_every_mismatch.
Proof.
  intros Hall.
  assert (Hnamed :
    mentions
      ("Class 'Point' does not have method 'area' but 'Measured' does." +:+ nl)
      "perimeter" = true).
  { apply (Hall Reference.collaborators Reference.Point Reference.Measured ""
             _ eq_refl eq_refl
             (mkFunctionSchema "perimeter"
                [("self", NamedClassType "Measured")] [FloatType])).
    - right. left.
    - reflexivity. }
  vm_compute in Hnamed. discriminate Hnamed.
Qed.

(** C2 (amended) at a concrete input: [Point] against [Measured]. *)
Lemma isSubtypeOfExt_reports_first_mismatch_witness :
  ∃ pre schema post,
    iface_methods Reference.Measured = pre ++ schema :: post
    ∧ Forall (λ s, satisfies (H := Reference.collaborators)
                     Reference.Point true s = true) pre
    ∧ satisfies (H := Reference.collaborators) Reference.Point true schema = false
    ∧ isSubtypeOfExt (H := Reference.collaborators) Reference.Point
        (InterfaceType Reference.Measured) (Some "")
      = (false,
         report_mismatch (H := Reference.collaborators) Reference.Point
           (InterfaceType Reference.Measured) schema
           (after_satisfied (H := Reference.collaborators) Reference.Point pre
              (Some ""))).
Proof.
  apply (isSubtypeOfExt_reports_first_mismatch (H := Reference.collaborators)
           Reference.Point Reference.Measured ""); reflexivity.
Defined.

(** ** The slot table *)

Section SlotTable.
Context `{Collaborators}.

Lemma addAttribute_fresh name type (is_parameter : bool) c :
  name ∉ constantNames_ c → name ∉ attributeNames_ c →
  admissible c type is_parameter →
  addAttribute name type is_parameter c
  = (Returned (length (attributeNames_ c)),
     set_parameterSlots ((λ v, v ++ [is_parameter]) <$> parameterSlots_ c)
       (pushed name type c)).
Proof.
  intros Hc Ha [Hany Hparam].
  rewrite addAttribute_eq, checkNotExist_fresh, Hany by done.
  destruct is_parameter; [|done].
  destruct Hparam as [-> ->]; done.
Qed.

Lemma addConstant_fresh name value c :
  name ∉ constantNames_ c → name ∉ attributeNames_ c →
  addConstant name value c
  = (Returned (length (constantNames_ c)),
     set_constantValues (constantValues_ c ++ [value])
       (set_constantNames (constantNames_ c ++ [name]) c)).
Proof.
  intros Hc Ha. by rewrite addConstant_eq, checkNotExist_fresh.
Qed.

(** C6. Attributes and constants share one namespace: with two distinct
    names that are both unused, an attribute under the first and a constant
    under the second can be added in either order; an add under a name that
    a constant holds fails with a NameConflict that shows that constant's
    value, and an add under a name that an attribute holds fails with a
    NameConflict that shows that attribute's type. *)
Theorem attributes_and_constants_share_names c n1 n2 type
    (is_parameter : bool) value :
  lengths_ok c →
  let what : string := if is_parameter then "parameter" else "attribute" in
  (n1 ≠ n2 →
   n1 ∉ attributeNames_ c → n1 ∉ constantNames_ c →
   n2 ∉ attributeNames_ c → n2 ∉ constantNames_ c →
   admissible c type is_parameter →
   (∃ c1 c2,
      addAttribute n1 type is_parameter c
      = (Returned (length (attributeNames_ c)), c1)
      ∧ addConstant n2 value c1 = (Returned (length (constantNames_ c)), c2))
   ∧ (∃ c1 c2,
        addConstant n2 value c = (Returned (length (constantNames_ c)), c1)
        ∧ addAttribute n1 type is_parameter c1
          = (Returned (length (attributeNames_ c)), c2)))
  ∧ (n1 ∈ constantNames_ c →
     ∃ k existing,
       constantNames_ c !! k = Some n1 ∧ constantValues_ c !! k = Some existing
       ∧ addAttribute n1 type is_parameter c
         = (Thrown (c10_Error NameConflict
                      (conflict_with_constant what n1 c existing)), c)
       ∧ addConstant n1 value c
         = (Thrown (c10_Error NameConflict
                      (conflict_with_constant "constant" n1 c existing)), c))
  ∧ (n1 ∉ constantNames_ c → n1 ∈ attributeNames_ c →
     ∃ k existing,
       attributeNames_ c !! k = Some n1 ∧ attributeTypes_ c !! k = Some existing
       ∧ addAttribute n1 type is_parameter c
         = (Thrown (c10_Error NameConflict
                      (conflict_with_attribute what n1 c existing)), c)
       ∧ addConstant n1 value c
         = (Thrown (c10_Error NameConflict
                      (conflict_with_attribute "constant" n1 c existing)), c)).
Proof.
  intros (Hty & Hps & Hcv) what. split_and!.
  - intros Hne Ha1 Hc1 Ha2 Hc2 Hadm. split.
    + eexists _, _. split; [by apply addAttribute_fresh|].
      rewrite addConstant_fresh; [done|done|].
      cbn. rewrite elem_of_app, list_elem_of_singleton. by intros [?|?].
    + eexists _, _. split; [by apply addConstant_fresh|].
      rewrite addAttribute_fresh; [done| |done|done].
      cbn. rewrite elem_of_app, list_elem_of_singleton. by intros [?|?].
  - intros Hin.
    pose proof (find_pos_lookup _ _ Hin) as Hk.
    destruct (lookup_lt_is_Some_2 (constantValues_ c)
                (find_pos n1 (constantNames_ c) 0)) as [existing Hv].
    { rewrite Hcv. by apply find_pos_lt_iff. }
    exists (find_pos n1 (constantNames_ c) 0), existing. split_and!; [done..| |].
    + rewrite addAttribute_eq. fold what.
      by rewrite checkNotExist_eq, decide_True, Hv.
    + rewrite addConstant_eq.
      by rewrite checkNotExist_eq, decide_True, Hv.
  - intros Hnc Hin.
    pose proof (find_pos_lookup _ _ Hin) as Hk.
    destruct (lookup_lt_is_Some_2 (attributeTypes_ c)
                (find_pos n1 (attributeNames_ c) 0)) as [existing Hv].
    { rewrite Hty. by apply find_pos_lt_iff. }
    exists (find_pos n1 (attributeNames_ c) 0), existing. split_and!; [done..| |].
    + rewrite addAttribute_eq. fold what.
      by rewrite checkNotExist_eq, decide_False, decide_True, Hv.
    + rewrite addConstant_eq.
      by rewrite checkNotExist_eq, decide_False, decide_True, Hv.
Qed.

(** C7. A successful [addAttribute] returns the attribute count before the
    call.  Removing the attribute stored at slot [k] erases index [k], and
    only it, from every parallel attribute sequence: the entries below [k]
    stay, and every entry formerly at a slot [j > k] is found at [j - 1]. *)
Theorem attribute_slots_renumber c :
  lengths_ok c →
  (∀ name type is_parameter slot c',
     addAttribute name type is_parameter c = (Returned slot, c') →
     slot = numAttributes c
     ∧ attributeNames_ c' !! slot = Some name
     ∧ attributeTypes_ c' !! slot = Some type)
  ∧ (∀ k name,
       NoDup (attributeNames_ c) →
       attributeNames_ c !! k = Some name →
       ∃ c',
         unsafeRemoveAttribute name c = (Returned tt, c')
         ∧ numAttributes c' = numAttributes c - 1
         ∧ length (attributeTypes_ c') = length (attributeTypes_ c) - 1
         ∧ (∀ j, j < k →
              attributeNames_ c' !! j = attributeNames_ c !! j
              ∧ attributeTypes_ c' !! j = attributeTypes_ c !! j)
         ∧ (∀ j, k < j →
              attributeNames_ c' !! (j - 1) = attributeNames_ c !! j
              ∧ attributeTypes_ c' !! (j - 1) = attributeTypes_ c !! j)
         ∧ attributeNames_ c' !! (k + 1) = attributeNames_ c !! (k + 2)
         ∧ attributeTypes_ c' !! (k + 1) = attributeTypes_ c !! (k + 2)
         ∧ match parameterSlots_ c with
           | None => parameterSlots_ c' = None
           | Some ps =>
               ∃ ps', parameterSlots_ c' = Some ps'
                 ∧ length ps' = length ps - 1
                 ∧ (∀ j, j < k → ps' !! j = ps !! j)
                 ∧ (∀ j, k < j → ps' !! (j - 1) = ps !! j)
           end
         ∧ constantNames_ c' = constantNames_ c
         ∧ constantValues_ c' = constantValues_ c
         ∧ methods c' = methods c).
Proof.
  intros Hok. split.
  - intros name type is_parameter slot c'. rewrite addAttribute_eq.
    destruct (checkNotExist _ _ c) as [[[]|e0] c0]; [|done].
    destruct (containsAny type); [done|].
    destruct (is_parameter && negb (is_module c)); [done|].
    destruct (is_parameter && negb (is_parameter_type type)); [done|].
    intros [= <- <-]. unfold numAttributes. split_and!; [done|..]; cbn.
    + by rewrite lookup_app_r, Nat.sub_diag.
    + destruct Hok as (Hty & _). by rewrite lookup_app_r, Hty, Nat.sub_diag by lia.
  - intros k name Hnd Hk.
    assert (Hin : name ∈ attributeNames_ c) by (by eapply list_elem_of_lookup_2).
    pose proof (find_pos_NoDup _ _ _ Hnd Hk) as Hpos.
    eexists. split; [by rewrite unsafeRemoveAttribute_eq|].
    rewrite Hpos. destruct Hok as (Hty & Hps & _).
    assert (Hlt : k < length (attributeNames_ c)) by (by eapply lookup_lt_Some).
    unfold numAttributes, methods. cbn.
    split_and!; try done.
    + rewrite length_delete; [done | by apply lookup_lt_is_Some_2].
    + rewrite length_delete; [done | apply lookup_lt_is_Some_2; lia].
    + intros j Hj. by rewrite !list_lookup_delete_lt.
    + intros j Hj. rewrite !list_lookup_delete_ge by lia.
      by replace (S (j - 1)) with j by lia.
    + rewrite list_lookup_delete_ge by lia. f_equal. lia.
    + rewrite list_lookup_delete_ge by lia. f_equal. lia.
    + destruct (parameterSlots_ c) as [ps|]; [|done].
      specialize (Hps ps eq_refl). eexists. split_and!; [done|..].
      * rewrite length_delete; [done | apply lookup_lt_is_Some_2; lia].
      * intros j Hj. by rewrite list_lookup_delete_lt.
      * intros j Hj. rewrite list_lookup_delete_ge by lia.
        by replace (S (j - 1)) with j by lia.
Qed.

(** C10. Method names are a namespace of their own.  [addMethod] succeeds
    exactly when no method of the class has the new name, whatever the
    attributes and constants are called, so also under the name of an
    attribute or a constant; [addAttribute] and [addConstant] look at the
    attribute and constant names only, so they succeed under the name of a
    method. *)
Theorem method_names_are_separate c :
  (∀ method,
     fn_name method ∉ fn_name <$> methods c →
     addMethod method c = (Returned tt, set_methods (methods c ++ [method]) c))
  ∧ (∀ method e c',
       addMethod method c = (Thrown e, c') →
       fn_name method ∈ fn_name <$> methods c)
  ∧ (∀ name type is_parameter,
       name ∉ attributeNames_ c → name ∉ constantNames_ c →
       admissible c type is_parameter →
       ∃ c', addAttribute name type is_parameter c
             = (Returned (numAttributes c), c')
             ∧ methods c' = methods c)
  ∧ (∀ name value,
       name ∉ attributeNames_ c → name ∉ constantNames_ c →
       ∃ c', addConstant name value c
             = (Returned (length (constantNames_ c)), c')
             ∧ methods c' = methods c).
Proof.
  unfold methods. split_and!.
  - intros method Hfresh%getMethod_in_None.
    rewrite addMethod_eq. unfold getMethod. by rewrite Hfresh.
  - intros method e c'. rewrite addMethod_eq. unfold getMethod.
    destruct (getMethod_in (methods_ c) (fn_name method)) as [m|] eqn:Hm; [|done].
    intros _. apply getMethod_in_Some in Hm as [Hin Hname].
    rewrite <- Hname. by apply list_elem_of_fmap_2.
  - intros name type is_parameter Ha Hc Hadm.
    eexists. split; [by apply addAttribute_fresh | done].
  - intros name value Ha Hc.
    eexists. split; [by apply addConstant_fresh | done].
Qed.

End SlotTable.

(** C6 at a concrete input: on [Linear], an attribute [gain] and a constant
    [out_features] in either order, and adds under the constant's name and
    under an attribute's name. *)
Lemma attributes_and_constants_share_names_witness :
  (∃ c1 c2,
     addAttribute (H := Reference.collaborators) "gain" FloatType false
       Reference.Linear = (Returned 3, c1)
     ∧ addConstant (H := Reference.collaborators) "out_features" (IVInt 8) c1
       = (Returned 1, c2))
  ∧ (∃ existing,
       addAttribute (H := Reference.collaborators) "in_features" FloatType false
         Reference.Linear
       = (Thrown (c10_Error NameConflict
            (conflict_with_constant (H := Reference.collaborators) "attribute"
               "in_features" Reference.Linear existing)), Reference.Linear))
  ∧ (∃ existing,
       addConstant (H := Reference.collaborators) "bias" (IVInt 8)
         Reference.Linear
       = (Thrown (c10_Error NameConflict
            (conflict_with_attribute (H := Reference.collaborators) "constant"
               "bias" Reference.Linear existing)), Reference.Linear)).
Proof.
  assert (Hok : lengths_ok Reference.Linear).
  { split_and!; [reflexivity | by intros ps [= <-] | reflexivity]. }
  split_and!.
  - destruct (attributes_and_constants_share_names
                (H := Reference.collaborators) Reference.Linear
                "gain" "out_features" FloatType false (IVInt 8) Hok)
      as ((Hfirst & _) & _); [compute_done..| |exact Hfirst].
    split; [reflexivity | discriminate].
  - destruct (attributes_and_constants_share_names
                (H := Reference.collaborators) Reference.Linear
                "in_features" "out_features" FloatType false (IVInt 8) Hok)
      as (_ & Hconst & _).
    destruct Hconst as (k & existing & _ & _ & Hadd & _); [compute_done|].
    by exists existing.
  - destruct (attributes_and_constants_share_names
                (H := Reference.collaborators) Reference.Linear
                "bias" "out_features" FloatType false (IVInt 8) Hok)
      as (_ & _ & Hattr).
    destruct Hattr as (k & existing & _ & _ & _ & Hadd); [compute_done..|].
    by exists existing.
Defined.

(** C7 at a concrete input: removing [weight], the attribute at slot 0 of
    [Linear]. *)
Lemma attribute_slots_renumber_witness :
  ∃ c',
    unsafeRemoveAttribute (H := Reference.collaborators) "weight"
      Reference.Linear = (Returned tt, c')
    ∧ attributeNames_ c' !! 1 = Some "scale"
    ∧ attributeNames_ Reference.Linear !! 2 = Some "scale".
Proof.
  assert (Hok : lengths_ok Reference.Linear).
  { split_and!; [reflexivity | by intros ps [= <-] | reflexivity]. }
  destruct (attribute_slots_renumber (H := Reference.collaborators)
              Reference.Linear Hok) as [_ Hremove].
  destruct (Hremove 0 "weight") as (c' & Hrun & _ & _ & _ & _ & Hnext & _).
  - compute_done.
  - reflexivity.
  - exists c'. split_and!; [exact Hrun | exact Hnext | reflexivity].
Defined.

(** C10 at a concrete input: a method called [weight] on [Linear], which
    has an attribute of that name, and an attribute called [forward]. *)
Lemma method_names_are_separate_witness :
  addMethod (H := Reference.collaborators)
    (mkFunction 9 "weight" Reference.area_float) Reference.Linear
  = (Returned tt,
     set_methods
       (methods Reference.Linear ++ [mkFunction 9 "weight" Reference.area_float])
       Reference.Linear)
  ∧ ∃ c', addAttribute (H := Reference.collaborators) "forward" FloatType false
            Reference.Linear = (Returned 3, c').
Proof.
  destruct (method_names_are_separate (H := Reference.collaborators)
              Reference.Linear) as (Hmethod & _ & Hattr & _).
  split.
  - apply Hmethod. compute_done.
  - destruct (Hattr "forward" FloatType false) as (c' & Hadd & _);
      [compute_done.. | | by exists c'].
    split; [reflexivity | discriminate].
Defined.

(** ** Refinement *)

Section Refinement.
Context `{Collaborators}.

(** C8. [refine] with a replacement list of the wrong length fails with the
    fatal assertion; with the right length and a replacement that is not a
    subtype of the attribute type at its slot it fails with the fatal
    assertion too; with every replacement a subtype it returns a new class
    type with the same qualified name, the same attribute names in the same
    order, the replacements as attribute types, and the same methods in the
    same order.  The class type is well formed and no replacement contains
    the catch-all type, which [addAttribute] rejects. *)
Theorem refine_spec c ts :
  (length ts ≠ numAttributes c →
   refine c ts
   = Thrown (InvariantViolation "numAttributes() == refined_slots.size()"))
  ∧ (lengths_ok c → names_ok c →
     Forall (λ t, containsAny t = false) ts →
     length ts = numAttributes c →
     (∀ i t a,
        ts !! i = Some t → attributeTypes_ c !! i = Some a →
        type_isSubtypeOf t a = false →
        refine c ts
        = Thrown (InvariantViolation
                    "refined_slots[i]->isSubtypeOf(attributeTypes_[i])"))
     ∧ (Forall2 (λ t a, type_isSubtypeOf t a = true) ts (attributeTypes_ c) →
        ∃ c',
          refine c ts = Returned c'
          ∧ name c' = name c
          ∧ numAttributes c' = numAttributes c
          ∧ attributeNames_ c' = attributeNames_ c
          ∧ attributeTypes_ c' = ts
          ∧ (∀ i, attributeTypes_ c' !! i = ts !! i)
          ∧ methods c' = methods c)).
Proof.
  split.
  - intros Hlen. unfold refine, refine_body, bind, AT_ASSERT.
    by rewrite bool_decide_eq_false_2 by (by intros Heq; apply Hlen).
  - intros Hok Hnames Hany Hlen. split.
    + intros i t a Ht Ha Hsub.
      destruct Hok as (Hty & _ & _). destruct Hnames as (Hnd & _).
      unfold numAttributes in Hlen.
      assert (Hi : i < length (attributeNames_ c)).
      { rewrite <- Hlen. by eapply lookup_lt_Some. }
      destruct (refine_loop_fails c ts (length (attributeNames_ c)) 0 i t a)
        as [c' Hloop]; try done; [lia|].
      unfold refine, refine_body.
      change (create (name c) (compilation_unit_ c) create_default_is_module)
        with (refining c ts 0).
      rewrite (bind_returned _ _ _ tt (refining c ts 0)); last first.
      { unfold AT_ASSERT, numAttributes. by rewrite bool_decide_eq_true_2. }
      by rewrite (bind_thrown _ _ _ _ _ Hloop).
    + intros Hsub. exists (refined c ts).
      split; [by apply refine_ok | done].
Qed.

(** C9. The class type that [refine] returns for a module is not a module:
    it is created without the flag, so it has no parameter-slot sequence and
    the parameter markings of the receiver are gone. *)
Theorem refine_drops_module_flag c ts :
  is_module c = true →
  lengths_ok c → names_ok c →
  length ts = numAttributes c →
  Forall2 (λ t a, type_isSubtypeOf t a = true) ts (attributeTypes_ c) →
  Forall (λ t, containsAny t = false) ts →
  ∃ c', refine c ts = Returned c'
        ∧ is_module c' = false
        ∧ parameterSlots_ c' = None.
Proof.
  intros _ Hok Hnames Hlen Hsub Hany. exists (refined c ts).
  split; [by apply refine_ok | done].
Qed.

End Refinement.

(** C8 at a concrete input: narrowing the optional [bias] of [Linear] to
    [None], a list that is too short, and a [float] for the tensor [bias]. *)
Lemma refine_spec_witness :
  (∃ c', refine (H := Reference.collaborators) Reference.Linear
           [TensorType; NoneType; FloatType] = Returned c'
         ∧ attributeNames_ c' = ["weight"; "bias"; "scale"]
         ∧ attributeTypes_ c' = [TensorType; NoneType; FloatType])
  ∧ refine (H := Reference.collaborators) Reference.Linear
      [TensorType; NoneType]
    = Thrown (InvariantViolation "numAttributes() == refined_slots.size()")
  ∧ refine (H := Reference.collaborators) Reference.Linear
      [TensorType; FloatType; FloatType]
    = Thrown (InvariantViolation
                "refined_slots[i]->isSubtypeOf(attributeTypes_[i])").
Proof.
  assert (Hok : lengths_ok Reference.Linear).
  { split_and!; [reflexivity | by intros ps [= <-] | reflexivity]. }
  assert (Hnames : names_ok Reference.Linear).
  { unfold names_ok. cbn. split; compute_done. }
  split_and!.
  - destruct (refine_spec (H := Reference.collaborators) Reference.Linear
                [TensorType; NoneType; FloatType]) as [_ Hright].
    destruct Hright as [_ Hgood]; [done|done| |reflexivity|].
    { repeat constructor. }
    destruct Hgood as (c' & Hrun & _ & _ & Hn & Ht & _).
    { repeat constructor. }
    by exists c'.
  - apply (refine_spec (H := Reference.collaborators) Reference.Linear
             [TensorType; NoneType]). cbn. lia.
  - destruct (refine_spec (H := Reference.collaborators) Reference.Linear
                [TensorType; FloatType; FloatType]) as [_ Hright].
    destruct Hright as [Hbad _]; [done|done| |reflexivity|].
    { repeat constructor. }
    by apply (Hbad 1 FloatType (OptionalType TensorType)).
Defined.

(** C9 at a concrete input: refining the module [Linear]. *)
Lemma refine_drops_module_flag_witness :
  is_module Reference.Linear = true
  ∧ ∃ c', refine (H := Reference.collaborators) Reference.Linear
            [TensorType; NoneType; FloatType] = Returned c'
          ∧ is_module c' = false
          ∧ parameterSlots_ c' = None.
Proof.
  split; [reflexivity|].
  apply (refine_drops_module_flag (H := Reference.collaborators)
           Reference.Linear [TensorType; NoneType; FloatType]).
  - reflexivity.
  - split_and!; [reflexivity | by intros ps [= <-] | reflexivity].
  - unfold names_ok. cbn. split; compute_done.
  - reflexivity.
  - repeat constructor.
  - repeat constructor.
Defined.

(** ** The parameter checks of [addAttribute] come after the appends *)

(** C1 (fails on the code). Adding a parameter to [Point], which is not a
    module, throws the internal assertion after the name and the type have
    been appended; adding a parameter of type [float] to the module [Linear]
    throws the type check after them too.  The sequences are not as they
    were before the call. *)
Theorem addAttribute_parameter_failure_keeps_appends :
  addAttribute (H := Reference.collaborators) "w" TensorType true
    Reference.Point
  = (Thrown (InvariantViolation "adding a parameter to a non module"),
     {| name := Some "Point"; compilation_unit_ := 0;
        attributeNames_ := ["x"; "y"; "w"];
        attributeTypes_ := [FloatType; FloatType; TensorType];
        parameterSlots_ := None;
        constantNames_ := []; constantValues_ := []; methods_ := [] |})
  ∧ attributeNames_ Reference.Point = ["x"; "y"]
  ∧ attributeTypes_ Reference.Point = [FloatType; FloatType]
  ∧ ∃ e, addAttribute (H := Reference.collaborators) "w" FloatType true
           Reference.Linear
         = (Thrown e,
            set_attributeTypes
              [TensorType; OptionalType TensorType; FloatType; FloatType]
              (set_attributeNames ["weight"; "bias"; "scale"; "w"]
                 Reference.Linear)).
Proof.
  split_and!; [reflexivity..|]. eexists. reflexivity.
Qed.

(** C3 (fails on the code). On the module [Linear], whose sequences agree in
    length, the failed add of a parameter of type [float] leaves four
    attribute names and four attribute types but three parameter slots. *)
Theorem failed_parameter_add_breaks_lengths :
  lengths_ok Reference.Linear
  ∧ ∃ e c',
      addAttribute (H := Reference.collaborators) "w" FloatType true
        Reference.Linear = (Thrown e, c')
      ∧ is_module c' = true
      ∧ numAttributes c' = 4
      ∧ length (attributeNames_ c') = 4
      ∧ length (attributeTypes_ c') = 4
      ∧ length <$> parameterSlots_ c' = Some 3
      ∧ ¬ lengths_ok c'.
Proof.
  split.
  - split_and!; [reflexivity | by intros ps [= <-] | reflexivity].
  - eexists _, _. split; [reflexivity|].
    split_and!; [reflexivity..|].
    intros (_ & Hps & _). specialize (Hps _ eq_refl). discriminate Hps.
Qed.

(** ** Constants *)

Section Constants.
Context `{Collaborators}.

(** The first index holding a name is its [find_pos]. *)
Lemma find_pos_first_index name names k :
  names !! k = Some name → (∀ j, j < k → names !! j ≠ Some name) →
  find_pos name names 0 = k.
Proof.
  intros Hk Hfirst.
  assert (Hin : name ∈ names) by (by eapply list_elem_of_lookup_2).
  pose proof (find_pos_lookup _ _ Hin) as Hpos.
  destruct (Nat.lt_trichotomy (find_pos name names 0) k) as [Hlt|[Heq|Hgt]].
  - by destruct (Hfirst _ Hlt).
  - done.
  - by destruct (find_pos_first _ _ _ Hgt).
Qed.

Lemma findConstant_eq name c :
  findConstant name c =
    if decide (length (constantNames_ c) = length (constantValues_ c)) then
      if decide (name ∈ constantNames_ c) then
        match constantValues_ c !! find_pos name (constantNames_ c) 0 with
        | Some v => (Returned (Some v), c)
        | None => (Thrown UndefinedBehaviour, c)
        end
      else (Returned None, c)
    else
      (Thrown (InvariantViolation
                 "constantNames_.size() == constantValues_.size()"), c).
Proof.
  unfold findConstant, bind, get, TORCH_INTERNAL_ASSERT.
  destruct (decide (length (constantNames_ c) = length (constantValues_ c)))
    as [Hlen|Hlen].
  - rewrite bool_decide_eq_true_2 by done. unfold ret at 1.
    destruct (decide (name ∈ constantNames_ c)) as [Hin|Hin].
    + rewrite decide_False by (apply find_pos_lt_iff in Hin; lia).
      unfold vec_at. by destruct (constantValues_ c !! _).
    + rewrite decide_True; [done|].
      rewrite <- find_pos_lt_iff in Hin. lia.
  - by rewrite bool_decide_eq_false_2.
Qed.

Lemma find_pos_app_l name l1 l2 :
  name ∈ l1 → find_pos name (l1 ++ l2) 0 = find_pos name l1 0.
Proof.
  induction l1 as [|x l1 IH]; simpl.
  - by intros ?%elem_of_nil.
  - destruct (decide (name = x)); [done|].
    intros [?|Hin]%elem_of_cons; [done|].
    rewrite (find_pos_shift _ (l1 ++ l2)), (find_pos_shift _ l1). by rewrite IH.
Qed.

Lemma find_pos_app_r name l1 l2 :
  name ∉ l1 → find_pos name (l1 ++ l2) 0 = length l1 + find_pos name l2 0.
Proof.
  induction l1 as [|x l1 IH]; simpl; [done|].
  intros [Hne Hnin]%not_elem_of_cons.
  rewrite decide_False by done.
  rewrite (find_pos_shift _ (l1 ++ l2)). rewrite IH by done. lia.
Qed.

Lemma find_pos_absent name names :
  name ∉ names → find_pos name names 0 = length names.
Proof.
  intros Hnin. pose proof (find_pos_lt_iff name names) as Hiff.
  assert (find_pos name names 0 ≤ 0 + length names).
  { clear. generalize 0. induction names as [|x l IH]; intros p; simpl; [lia|].
    destruct (decide (name = x)); [lia|]. specialize (IH (S p)). lia. }
  destruct (decide (find_pos name names 0 < length names)) as [Hlt|]; [|lia].
  by apply Hiff in Hlt.
Qed.

(** Erasing an entry that does not hold [other] moves the first index of
    [other] down by one when it lies behind the erased entry. *)
Lemma find_pos_delete other names k :
  k < length names → names !! k ≠ Some other →
  find_pos other (delete k names) 0
  = if decide (find_pos other names 0 < k) then find_pos other names 0
    else find_pos other names 0 - 1.
Proof.
  revert k. induction names as [|x l IH]; intros k Hk Hne; [simpl in Hk; lia|].
  destruct k as [|k]; simpl in *.
  - rewrite decide_False by congruence.
    rewrite (find_pos_shift _ l 1). try rewrite decide_False by lia.
    cbn. lia.
  - destruct (decide (other = x)) as [->|Hx].
    + by rewrite decide_True by lia.
    + rewrite (find_pos_shift _ (delete k l)), (find_pos_shift _ l 1).
      rewrite IH by (done || lia).
      assert (Hpk : find_pos other l 0 ≠ k).
      { intros Heq. destruct (decide (other ∈ l)) as [Hin|Hnin].
        - apply find_pos_lookup in Hin. by rewrite Heq in Hin.
        - apply find_pos_absent in Hnin. lia. }
      repeat case_decide; lia.
Qed.

Lemma NoDup_delete_not_elem {A} (l : list A) k x :
  NoDup l → l !! k = Some x → x ∉ delete k l.
Proof.
  intros Hnd Hk. rewrite delete_take_drop.
  rewrite <- (take_drop_middle l k x Hk) in Hnd.
  apply NoDup_app in Hnd as (_ & Hdisj & Hnd').
  apply NoDup_cons in Hnd' as [Hnin _].
  rewrite elem_of_app. intros [Hin|Hin]; [|done].
  apply (Hdisj _ Hin). left.
Qed.

Lemma getConstant_eq name c :
  getConstant name c =
    match findConstant name c with
    | (Returned (Some v), _) => (Returned v, c)
    | (Returned None, _) =>
        (Thrown (c10_Error NotFound
                   (python_str c +:+ " does not have a constant field with name '"
                    +:+ name +:+ "'")), c)
    | (Thrown e, _) => (Thrown e, c)
    end.
Proof.
  unfold getConstant. unfold bind at 1, get at 1. unfold bind at 1.
  rewrite findConstant_eq. repeat (case_decide || case_match); by simplify_eq.
Qed.

(** X1. On a class type whose constant vectors agree in length, a stored
    constant is found under its name: [findConstant] and [getConstant] by
    name give the value stored at the first slot holding the name, the same
    value that [getConstant] by slot gives there, and none of them changes
    the class type. *)
Theorem constant_found_by_name_and_slot c name k :
  length (constantValues_ c) = length (constantNames_ c) →
  constantNames_ c !! k = Some name →
  (∀ j, j < k → constantNames_ c !! j ≠ Some name) →
  ∃ v, constantValues_ c !! k = Some v
       ∧ findConstant name c = (Returned (Some v), c)
       ∧ getConstant name c = (Returned v, c)
       ∧ getConstant_slot k c = (Returned v, c).
Proof.
  intros Hlen Hk Hfirst.
  assert (Hin : name ∈ constantNames_ c) by (by eapply list_elem_of_lookup_2).
  assert (Hlt : k < length (constantNames_ c)) by (by eapply lookup_lt_Some).
  destruct (lookup_lt_is_Some_2 (constantValues_ c) k) as [v Hv]; [lia|].
  assert (Hfind : findConstant name c = (Returned (Some v), c)).
  { rewrite findConstant_eq, decide_True, decide_True by done.
    by rewrite (find_pos_first_index _ _ _ Hk Hfirst), Hv. }
  exists v. split_and!; [done|done| |].
  - by rewrite getConstant_eq, Hfind.
  - unfold getConstant_slot, bind, get, TORCH_INTERNAL_ASSERT, TORCH_CHECK.
    rewrite bool_decide_eq_true_2 by done. unfold ret at 1.
    rewrite bool_decide_eq_true_2 by lia. unfold ret at 1.
    by rewrite (vec_at_Some _ _ _ _ Hv).
Qed.

(** X2. A name that no constant holds: the probe [findConstant] returns an
    empty optional without throwing, [getConstant] by name throws NotFound,
    and the class type is unchanged. *)
Theorem constant_absent c name :
  length (constantValues_ c) = length (constantNames_ c) →
  name ∉ constantNames_ c →
  findConstant name c = (Returned None, c)
  ∧ getConstant name c
    = (Thrown (c10_Error NotFound
                 (python_str c +:+ " does not have a constant field with name '"
                  +:+ name +:+ "'")), c).
Proof.
  intros Hlen Hnin.
  assert (Hfind : findConstant name c = (Returned None, c)).
  { by rewrite findConstant_eq, decide_True, decide_False. }
  split; [done|]. by rewrite getConstant_eq, Hfind.
Qed.

(** X3. [getConstant] by slot checks the bound: a slot below the constant
    count gives the value stored there, any other slot throws
    IndexOutOfRange.  When the two constant vectors differ in length every
    constant accessor throws the internal assertion before it looks at
    anything else. *)
Theorem constant_slot_bounds c slot name :
  (length (constantValues_ c) = length (constantNames_ c) →
   (slot < length (constantNames_ c) →
    ∃ v, constantValues_ c !! slot = Some v
         ∧ getConstant_slot slot c = (Returned v, c))
   ∧ (length (constantNames_ c) ≤ slot →
      getConstant_slot slot c
      = (Thrown (c10_Error IndexOutOfRange
                   (python_str c +:+ " does not have a constant slot of index "
                    +:+ pretty slot)), c)))
  ∧ (length (constantValues_ c) ≠ length (constantNames_ c) →
     let failed :=
       InvariantViolation "constantNames_.size() == constantValues_.size()" in
     getConstant_slot slot c = (Thrown failed, c)
     ∧ findConstant name c = (Thrown failed, c)
     ∧ getConstant name c = (Thrown failed, c)).
Proof.
  split.
  - intros Hlen. split.
    + intros Hlt.
      destruct (lookup_lt_is_Some_2 (constantValues_ c) slot) as [v Hv]; [lia|].
      exists v. split; [done|].
      unfold getConstant_slot, bind, get, TORCH_INTERNAL_ASSERT, TORCH_CHECK.
      rewrite bool_decide_eq_true_2 by done. unfold ret at 1.
      rewrite bool_decide_eq_true_2 by lia. unfold ret at 1.
      by rewrite (vec_at_Some _ _ _ _ Hv).
    + intros Hge.
      unfold getConstant_slot, bind, get, TORCH_INTERNAL_ASSERT, TORCH_CHECK.
      rewrite bool_decide_eq_true_2 by done. unfold ret at 1.
      by rewrite bool_decide_eq_false_2 by lia.
  - intros Hlen failed.
    assert (Hfind : findConstant name c = (Thrown failed, c)).
    { by rewrite findConstant_eq, decide_False. }
    split_and!; [|done|].
    + unfold getConstant_slot, bind, get, TORCH_INTERNAL_ASSERT.
      by rewrite bool_decide_eq_false_2.
    + by rewrite getConstant_eq, Hfind.
Qed.

Lemma delete_snoc {A} (l : list A) x : delete (length l) (l ++ [x]) = l.
Proof. by rewrite delete_middle, app_nil_r. Qed.

Lemma find_pos_snoc name names :
  name ∉ names → find_pos name (names ++ [name]) 0 = length names.
Proof.
  intros Hnin. rewrite find_pos_app_r by done. cbn.
  rewrite decide_True by done. lia.
Qed.

(** X4. A constant that has been added is found again: after a successful
    [addConstant] the probe by name and the accessor by the returned slot
    both give the added value, and the lookup of every other name gives what
    it gave before. *)
Theorem addConstant_then_found c name value slot c' :
  length (constantValues_ c) = length (constantNames_ c) →
  addConstant name value c = (Returned slot, c') →
  findConstant name c' = (Returned (Some value), c')
  ∧ getConstant_slot slot c' = (Returned value, c')
  ∧ (∀ other, other ≠ name →
       (findConstant other c').1 = (findConstant other c).1).
Proof.
  intros Hlen. rewrite addConstant_eq.
  destruct (checkNotExist name "constant" c) as [[[]|e] c0] eqn:Hcheck; [|done].
  apply checkNotExist_returns in Hcheck as (Hnc & _ & _).
  intros [= <- <-].
  assert (Hv : (constantValues_ c ++ [value]) !! length (constantNames_ c)
               = Some value).
  { by rewrite lookup_app_r, Hlen, Nat.sub_diag by lia. }
  split_and!.
  - rewrite findConstant_eq. cbn.
    rewrite decide_True by (rewrite !length_app; cbn; lia).
    rewrite decide_True by (rewrite elem_of_app, list_elem_of_singleton; by right).
    by rewrite find_pos_snoc, Hv.
  - unfold getConstant_slot, bind, get, TORCH_INTERNAL_ASSERT, TORCH_CHECK. cbn.
    rewrite bool_decide_eq_true_2 by (rewrite !length_app; cbn; lia).
    unfold ret at 1.
    rewrite bool_decide_eq_true_2 by (rewrite !length_app; cbn; lia).
    unfold ret at 1. by rewrite (vec_at_Some _ _ _ _ Hv).
  - intros other Hne. rewrite !findConstant_eq. cbn.
    rewrite (decide_True (P := length (constantNames_ c ++ [name]) = _))
      by (rewrite !length_app; cbn; lia).
    rewrite (decide_True (P := length (constantNames_ c) = _)) by done.
    destruct (decide (other ∈ constantNames_ c)) as [Hin|Hnin].
    + rewrite decide_True by (rewrite elem_of_app; by left).
      rewrite find_pos_app_l by done.
      pose proof (proj2 (find_pos_lt_iff _ _) Hin) as Hlt.
      rewrite lookup_app_l by lia.
      by destruct (constantValues_ c !! _).
    + rewrite decide_False; [done|].
      rewrite elem_of_app, list_elem_of_singleton. by intros [?|?].
Qed.

(** X5. Removing a constant of a well-formed class type with unique constant
    names makes the name absent, and the lookup of every other name gives
    what it gave before, although the slots behind the removed one have
    moved. *)
Theorem unsafeRemoveConstant_then_absent c name :
  lengths_ok c → NoDup (constantNames_ c) → name ∈ constantNames_ c →
  ∃ c', unsafeRemoveConstant name c = (Returned tt, c')
        ∧ findConstant name c' = (Returned None, c')
        ∧ (∀ other, other ≠ name →
             (findConstant other c').1 = (findConstant other c).1).
Proof.
  intros Hok Hnd Hin. eexists. split; [by apply unsafeRemoveConstant_eq|].
  destruct Hok as (_ & _ & Hlen).
  pose proof (find_pos_lookup _ _ Hin) as Hk.
  pose proof (proj2 (find_pos_lt_iff _ _) Hin) as Hlt.
  set (k := find_pos name (constantNames_ c) 0) in *.
  assert (Hlen' : length (delete k (constantNames_ c))
                  = length (delete k (constantValues_ c))).
  { rewrite !length_delete; [lia | apply lookup_lt_is_Some_2; lia..]. }
  split.
  - rewrite findConstant_eq. cbn.
    rewrite decide_True by done.
    by rewrite decide_False by (by apply NoDup_delete_not_elem).
  - intros other Hne. rewrite !findConstant_eq. cbn.
    rewrite (decide_True (P := length (delete k (constantNames_ c)) = _))
      by done.
    rewrite (decide_True (P := length (constantNames_ c) = _)) by done.
    assert (Hkne : constantNames_ c !! k ≠ Some other) by congruence.
    pose proof (find_pos_delete other _ k Hlt Hkne) as Hpos.
    destruct (decide (other ∈ constantNames_ c)) as [Hino|Hnino].
    + pose proof (find_pos_lookup _ _ Hino) as Hp.
      pose proof (proj2 (find_pos_lt_iff _ _) Hino) as Hplt.
      assert (Hpk : find_pos other (constantNames_ c) 0 ≠ k) by congruence.
      assert (Hin' : other ∈ delete k (constantNames_ c)).
      { apply find_pos_lt_iff. rewrite Hpos.
        rewrite length_delete by (apply lookup_lt_is_Some_2; lia).
        case_decide; lia. }
      rewrite decide_True by done. rewrite Hpos.
      case_decide.
      * rewrite list_lookup_delete_lt by done.
        by destruct (constantValues_ c !! _).
      * rewrite list_lookup_delete_ge by lia.
        replace (S (find_pos other (constantNames_ c) 0 - 1))
          with (find_pos other (constantNames_ c) 0) by lia.
        by destruct (constantValues_ c !! _).
    + rewrite decide_False; [done|].
      intros Hin'. by apply list_elem_of_delete_inv in Hin'.
Qed.

(** X6. [unsafeRemoveConstant] undoes [addConstant]: removing the constant
    that has just been added gives back the class type as it was. *)
Theorem addConstant_then_remove c name value slot c' :
  lengths_ok c →
  addConstant name value c = (Returned slot, c') →
  unsafeRemoveConstant name c' = (Returned tt, c).
Proof.
  intros Hok Hadd.
  pose proof (addConstant_lengths_ok name value c Hok) as Hok'.
  rewrite Hadd in Hok'. cbn in Hok'.
  revert Hadd. rewrite addConstant_eq.
  destruct (checkNotExist name "constant" c) as [[[]|e] c0] eqn:Hcheck; [|done].
  apply checkNotExist_returns in Hcheck as (Hnc & _ & _).
  intros [= <- <-].
  rewrite unsafeRemoveConstant_eq;
    [|done|cbn; rewrite elem_of_app, list_elem_of_singleton; by right].
  cbn. rewrite find_pos_snoc by done.
  destruct Hok as (_ & _ & Hlen).
  rewrite delete_snoc. rewrite <- Hlen, delete_snoc.
  by destruct c.
Qed.

End Constants.

(** The module [Linear] of the examples is well formed. *)
Lemma Linear_lengths_ok : lengths_ok Reference.Linear.
Proof. split_and!; [reflexivity | by intros ps [= <-] | reflexivity]. Qed.

Lemma Linear_names_ok : names_ok Reference.Linear.
Proof. unfold names_ok. cbn. split; compute_done. Qed.

(** X1 at a concrete input: the constant [in_features] of [Linear]. *)
Lemma constant_found_by_name_and_slot_witness :
  ∃ v, constantValues_ Reference.Linear !! 0 = Some v
       ∧ findConstant "in_features"
           Reference.Linear = (Returned (Some v), Reference.Linear)
       ∧ getConstant (H := Reference.collaborators) "in_features"
           Reference.Linear = (Returned v, Reference.Linear)
       ∧ getConstant_slot (H := Reference.collaborators) 0 Reference.Linear
         = (Returned v, Reference.Linear).
Proof.
  apply (constant_found_by_name_and_slot (H := Reference.collaborators)
           Reference.Linear "in_features" 0); [reflexivity..|].
  intros j Hj. lia.
Defined.

(** X2 at a concrete input: [Linear] has no constant [stride]. *)
Lemma constant_absent_witness :
  findConstant "stride" Reference.Linear
  = (Returned None, Reference.Linear)
  ∧ getConstant (H := Reference.collaborators) "stride" Reference.Linear
    = (Thrown (c10_Error NotFound
                 "Linear does not have a constant field with name 'stride'"),
       Reference.Linear).
Proof.
  apply (constant_absent (H := Reference.collaborators) Reference.Linear
           "stride"); [reflexivity | compute_done].
Defined.

(** X3 at a concrete input: slot 5 of [Linear], which has one constant. *)
Lemma constant_slot_bounds_witness :
  (getConstant_slot (H := Reference.collaborators) 5 Reference.Linear).1
  = Thrown (c10_Error IndexOutOfRange
              "Linear does not have a constant slot of index 5").
Proof.
  destruct (constant_slot_bounds (H := Reference.collaborators)
              Reference.Linear 5 "in_features") as [Hbounds _].
  destruct Hbounds as [_ Hout]; [reflexivity|].
  rewrite Hout; [reflexivity | cbn; lia].
Defined.

(** X4 at a concrete input: adding [out_features] to [Linear]. *)
Lemma addConstant_then_found_witness :
  let c' := (addConstant (H := Reference.collaborators) "out_features"
               (IVInt 8) Reference.Linear).2 in
  findConstant "out_features" c'
  = (Returned (Some (IVInt 8)), c')
  ∧ getConstant_slot (H := Reference.collaborators) 1 c'
    = (Returned (IVInt 8), c')
  ∧ (∀ other, other ≠ "out_features" →
       (findConstant other c').1
       = (findConstant other Reference.Linear).1).
Proof.
  apply (addConstant_then_found (H := Reference.collaborators) Reference.Linear
           "out_features" (IVInt 8) 1); reflexivity.
Defined.

(** X5 at a concrete input: removing [in_features] from [Linear]. *)
Lemma unsafeRemoveConstant_then_absent_witness :
  ∃ c', unsafeRemoveConstant (H := Reference.collaborators) "in_features"
          Reference.Linear = (Returned tt, c')
        ∧ findConstant "in_features" c'
          = (Returned None, c')
        ∧ (∀ other, other ≠ "in_features" →
             (findConstant other c').1
             = (findConstant other
                  Reference.Linear).1).
Proof.
  apply (unsafeRemoveConstant_then_absent (H := Reference.collaborators)
           Reference.Linear "in_features").
  - exact Linear_lengths_ok.
  - compute_done.
  - compute_done.
Defined.

(** X6 at a concrete input: adding [out_features] to [Linear] and removing
    it again. *)
Lemma addConstant_then_remove_witness :
  unsafeRemoveConstant (H := Reference.collaborators) "out_features"
    (addConstant (H := Reference.collaborators) "out_features" (IVInt 8)
       Reference.Linear).2
  = (Returned tt, Reference.Linear).
Proof.
  apply (addConstant_then_remove (H := Reference.collaborators) Reference.Linear
           "out_features" (IVInt 8) 1); [exact Linear_lengths_ok | reflexivity].
Defined.

(** ** Attributes *)

Section Attributes.
Context `{Collaborators}.

(** X7. The adds succeed exactly when nothing stands in their way:
    [addAttribute] returns iff the name is held by no constant and no
    attribute and the type is admissible (no catch-all type; a parameter
    only on a module and only of tensor, optional-tensor or none type);
    [addConstant] returns iff the name is held by no constant and no
    attribute. *)
Theorem adds_return_iff c name type (is_parameter : bool) value :
  ((∃ slot c', addAttribute name type is_parameter c = (Returned slot, c'))
   ↔ (name ∉ constantNames_ c) ∧ (name ∉ attributeNames_ c)
     ∧ admissible c type is_parameter)
  ∧ ((∃ slot c', addConstant name value c = (Returned slot, c'))
     ↔ (name ∉ constantNames_ c) ∧ (name ∉ attributeNames_ c)).
Proof.
  split; split.
  - intros (slot & c' & Hadd). revert Hadd. rewrite addAttribute_eq.
    destruct (checkNotExist name _ c) as [[[]|e] c0] eqn:Hcheck; [|done].
    apply checkNotExist_returns in Hcheck as (Hnc & Hna & _).
    unfold admissible.
    destruct (containsAny type); [done|].
    destruct is_parameter; cbn [andb]; [|by intros _; split_and!].
    destruct (is_module c); cbn [negb]; [|done].
    destruct (is_parameter_type type); cbn [negb]; [|done].
    by intros _; split_and!.
  - intros (Hnc & Hna & Hadm). eexists _, _. by apply addAttribute_fresh.
  - intros (slot & c' & Hadd). revert Hadd. rewrite addConstant_eq.
    destruct (checkNotExist name _ c) as [[[]|e] c0] eqn:Hcheck; [|done].
    by apply checkNotExist_returns in Hcheck as (Hnc & Hna & _).
  - intros (Hnc & Hna). eexists _, _. by apply addConstant_fresh.
Qed.

(** X8. Which failure [addAttribute] reports when several apply: a name
    conflict comes first, then the catch-all type, then a parameter on a
    class that is not a module (the internal assertion, also when the type
    is not a tensor type), then the parameter's type.  The first two leave
    the class type unchanged. *)
Theorem addAttribute_failure_order c name type (is_parameter : bool) :
  lengths_ok c →
  let what : string := if is_parameter then "parameter" else "attribute" in
  (name ∈ constantNames_ c ∨ name ∈ attributeNames_ c →
   ∃ msg, addAttribute name type is_parameter c
          = (Thrown (c10_Error NameConflict msg), c))
  ∧ (name ∉ constantNames_ c → name ∉ attributeNames_ c →
     (containsAny type = true →
      addAttribute name type is_parameter c
      = (Thrown (c10_Error TypeRejected
                   (contains_any_message what name type c)), c))
     ∧ (containsAny type = false → is_parameter = true →
        (is_module c = false →
         (addAttribute name type is_parameter c).1
         = Thrown (InvariantViolation not_a_module_message))
        ∧ (is_module c = true → is_parameter_type type = false →
           (addAttribute name type is_parameter c).1
           = Thrown (c10_Error TypeRejected (parameter_type_message type))))).
Proof.
  intros (Hty & _ & Hcv) what. split.
  - intros Hin. rewrite addAttribute_eq, checkNotExist_eq. fold what.
    destruct (decide (name ∈ constantNames_ c)) as [Hc|Hc].
    + destruct (lookup_lt_is_Some_2 (constantValues_ c)
                  (find_pos name (constantNames_ c) 0)) as [v Hv].
      { rewrite Hcv. by apply find_pos_lt_iff. }
      rewrite Hv. by eexists.
    + destruct Hin as [?|Ha]; [done|]. rewrite decide_True by done.
      destruct (lookup_lt_is_Some_2 (attributeTypes_ c)
                  (find_pos name (attributeNames_ c) 0)) as [t Ht].
      { rewrite Hty. by apply find_pos_lt_iff. }
      rewrite Ht. by eexists.
  - intros Hc Ha. rewrite addAttribute_eq, checkNotExist_fresh by done.
    fold what. split.
    + by intros ->.
    + intros -> ->. cbn [andb]. split.
      * by intros ->.
      * by intros -> ->.
Qed.

(** X9. A successful [addAttribute] only appends: the attributes below the
    returned slot keep their names and types, the constants and the methods
    are untouched, and on a module the parameter flag of the call is stored
    at the returned slot while the earlier flags stay; a class that is not a
    module still has no flags. *)
Theorem addAttribute_appends c name type is_parameter slot c' :
  lengths_ok c →
  addAttribute name type is_parameter c = (Returned slot, c') →
  attributeNames_ c' = attributeNames_ c ++ [name]
  ∧ attributeTypes_ c' = attributeTypes_ c ++ [type]
  ∧ (∀ j, j < slot →
       attributeNames_ c' !! j = attributeNames_ c !! j
       ∧ attributeTypes_ c' !! j = attributeTypes_ c !! j)
  ∧ match parameterSlots_ c with
    | Some ps =>
        parameterSlots_ c' = Some (ps ++ [is_parameter])
        ∧ (ps ++ [is_parameter]) !! slot = Some is_parameter
    | None => parameterSlots_ c' = None
    end
  ∧ constantNames_ c' = constantNames_ c
  ∧ constantValues_ c' = constantValues_ c
  ∧ methods c' = methods c.
Proof.
  intros (Hty & Hps & _). rewrite addAttribute_eq.
  destruct (checkNotExist name _ c) as [[[]|e] c0]; [|done].
  destruct (containsAny type); [done|].
  destruct (is_parameter && negb (is_module c)); [done|].
  destruct (is_parameter && negb (is_parameter_type type)); [done|].
  intros [= <- <-]. cbn. split_and!; try done.
  - intros j Hj. by rewrite !lookup_app_l by lia.
  - destruct (parameterSlots_ c) as [ps|]; [|done]. split; [done|].
    by rewrite lookup_app_r, (Hps ps), Nat.sub_diag by (rewrite ?(Hps ps); done).
Qed.

(** X10. [unsafeRemoveAttribute] undoes [addAttribute]: removing the
    attribute that has just been added gives back the class type as it
    was. *)
Theorem addAttribute_then_remove c name type is_parameter slot c' :
  lengths_ok c →
  addAttribute name type is_parameter c = (Returned slot, c') →
  unsafeRemoveAttribute name c' = (Returned tt, c).
Proof.
  intros Hok Hadd.
  pose proof (addAttribute_returned_lengths_ok _ _ _ _ _ _ Hok Hadd) as Hok'.
  revert Hadd Hok'. rewrite addAttribute_eq.
  destruct (checkNotExist name _ c) as [[[]|e] c0] eqn:Hcheck; [|done].
  apply checkNotExist_returns in Hcheck as (_ & Hna & _).
  destruct (containsAny type); [done|].
  destruct (is_parameter && negb (is_module c)); [done|].
  destruct (is_parameter && negb (is_parameter_type type)); [done|].
  intros [= <- <-] Hok'.
  rewrite unsafeRemoveAttribute_eq;
    [|done|cbn; rewrite elem_of_app, list_elem_of_singleton; by right].
  cbn. rewrite find_pos_snoc by done.
  destruct Hok as (Hty & Hps & _).
  rewrite delete_snoc. rewrite <- Hty, delete_snoc.
  destruct c as [n cu an at_ ps cn cv ms]; cbn in *.
  destruct ps as [ps|]; [|done]. cbn.
  by rewrite Hty, <- (Hps ps eq_refl), delete_snoc.
Qed.

(** X11. Removing an attribute frees its name: on a well-formed class type
    with unique field names the attribute can be removed and an attribute of
    the same name added again, which gets the last slot. *)
Theorem unsafeRemoveAttribute_frees_name c name type is_parameter :
  lengths_ok c → fields_unique c →
  name ∈ attributeNames_ c → admissible c type is_parameter →
  ∃ c' c'',
    unsafeRemoveAttribute name c = (Returned tt, c')
    ∧ addAttribute name type is_parameter c'
      = (Returned (numAttributes c - 1), c'').
Proof.
  intros Hok Huniq Hin [Hany Hparam].
  apply NoDup_app in Huniq as (Hnd & Hdisj & _).
  eexists _, _. split; [by apply unsafeRemoveAttribute_eq|].
  pose proof (find_pos_lookup _ _ Hin) as Hk.
  rewrite addAttribute_fresh.
  - cbn. unfold numAttributes.
    by rewrite length_delete by (by eexists).
  - cbn. by apply Hdisj.
  - cbn. by apply NoDup_delete_not_elem.
  - split; [done|]. intros Hp. destruct (Hparam Hp) as [Hm Hpt].
    split; [|done]. unfold is_module in *. cbn.
    by destruct (parameterSlots_ c).
Qed.

(** X12. Removing one attribute keeps what the others are bound to: another
    attribute is still found by name, at its old slot when that lies below
    the removed one and one slot lower otherwise, and the type (and, on a
    module, the parameter flag) stored at its slot is the one it had. *)
Theorem unsafeRemoveAttribute_keeps_bindings c name other :
  lengths_ok c →
  name ∈ attributeNames_ c → other ∈ attributeNames_ c → other ≠ name →
  ∃ c' k p p',
    getAttributeSlot name c = (Returned k, c)
    ∧ unsafeRemoveAttribute name c = (Returned tt, c')
    ∧ getAttributeSlot other c = (Returned p, c)
    ∧ getAttributeSlot other c' = (Returned p', c')
    ∧ p' = (if decide (p < k) then p else p - 1)
    ∧ attributeNames_ c' !! p' = Some other
    ∧ attributeTypes_ c' !! p' = attributeTypes_ c !! p
    ∧ ((λ ps, ps !! p') <$> parameterSlots_ c')
      = ((λ ps, ps !! p) <$> parameterSlots_ c).
Proof.
  intros Hok Hin Hother Hne.
  pose proof (find_pos_lookup _ _ Hin) as Hk.
  pose proof (proj2 (find_pos_lt_iff _ _) Hin) as Hklt.
  pose proof (find_pos_lookup _ _ Hother) as Hp.
  pose proof (proj2 (find_pos_lt_iff _ _) Hother) as Hplt.
  set (k := find_pos name (attributeNames_ c) 0) in *.
  set (p := find_pos other (attributeNames_ c) 0) in *.
  assert (Hkne : attributeNames_ c !! k ≠ Some other) by congruence.
  assert (Hpk : p ≠ k) by congruence.
  pose proof (find_pos_delete other _ k Hklt Hkne) as Hpos. fold p in Hpos.
  assert (Hin' : other ∈ delete k (attributeNames_ c)).
  { apply find_pos_lt_iff. rewrite Hpos.
    rewrite length_delete by (by eexists). case_decide; lia. }
  eexists _, k, p, (if decide (p < k) then p else p - 1).
  split_and!.
  - by rewrite getAttributeSlot_eq, decide_True.
  - by apply unsafeRemoveAttribute_eq.
  - by rewrite getAttributeSlot_eq, decide_True.
  - rewrite getAttributeSlot_eq. cbn. fold k. by rewrite decide_True, Hpos.
  - done.
  - cbn. fold k. rewrite <- Hpos. by apply find_pos_lookup.
  - cbn. fold k. case_decide.
    + by rewrite list_lookup_delete_lt.
    + rewrite list_lookup_delete_ge by lia. f_equal. lia.
  - cbn. fold k. destruct (parameterSlots_ c) as [ps|]; [|done]. cbn. f_equal.
    case_decide.
    + by rewrite list_lookup_delete_lt.
    + rewrite list_lookup_delete_ge by lia. f_equal. lia.
Qed.

End Attributes.

(** X8 at a concrete input: a parameter [weight] of the catch-all type on
    [Linear], which has an attribute of that name, and a parameter of type
    [float] on [Point], which is not a module. *)
Lemma addAttribute_failure_order_witness :
  (∃ msg, addAttribute (H := Reference.collaborators) "weight" AnyType true
            Reference.Linear
          = (Thrown (c10_Error NameConflict msg), Reference.Linear))
  ∧ (addAttribute (H := Reference.collaborators) "w" FloatType true
       Reference.Point).1
    = Thrown (InvariantViolation not_a_module_message).
Proof.
  split.
  - apply (addAttribute_failure_order (H := Reference.collaborators)
             Reference.Linear "weight" AnyType true Linear_lengths_ok).
    right. compute_done.
  - assert (Hok : lengths_ok Reference.Point).
    { split_and!; [reflexivity | by intros ps [=] | reflexivity]. }
    destruct (addAttribute_failure_order (H := Reference.collaborators)
                Reference.Point "w" FloatType true Hok) as [_ Hfresh].
    destruct Hfresh as [_ Hparam]; [compute_done..|].
    destruct Hparam as [Hnon _]; [reflexivity..|].
    by apply Hnon.
Defined.

(** X9 at a concrete input: the attribute [gain] added to [Linear]. *)
Lemma addAttribute_appends_witness :
  let c' := (addAttribute (H := Reference.collaborators) "gain" FloatType false
               Reference.Linear).2 in
  attributeNames_ c' = ["weight"; "bias"; "scale"; "gain"]
  ∧ parameterSlots_ c' = Some [true; true; false; false].
Proof.
  destruct (addAttribute_appends (H := Reference.collaborators)
              Reference.Linear "gain" FloatType false 3
              (addAttribute (H := Reference.collaborators) "gain" FloatType
                 false Reference.Linear).2 Linear_lengths_ok eq_refl)
    as (Hn & _ & _ & [Hps _] & _).
  split; [exact Hn | exact Hps].
Defined.

(** X10 at a concrete input: adding [gain] to [Linear] and removing it. *)
Lemma addAttribute_then_remove_witness :
  unsafeRemoveAttribute (H := Reference.collaborators) "gain"
    (addAttribute (H := Reference.collaborators) "gain" TensorType true
       Reference.Linear).2
  = (Returned tt, Reference.Linear).
Proof.
  apply (addAttribute_then_remove (H := Reference.collaborators)
           Reference.Linear "gain" TensorType true 3);
    [exact Linear_lengths_ok | reflexivity].
Defined.

(** X11 at a concrete input: removing [bias] from [Linear] and adding a
    [bias] of type [None]. *)
Lemma unsafeRemoveAttribute_frees_name_witness :
  ∃ c' c'',
    unsafeRemoveAttribute (H := Reference.collaborators) "bias"
      Reference.Linear = (Returned tt, c')
    ∧ addAttribute (H := Reference.collaborators) "bias" NoneType true c'
      = (Returned 2, c'').
Proof.
  apply (unsafeRemoveAttribute_frees_name (H := Reference.collaborators)
           Reference.Linear "bias" NoneType true).
  - exact Linear_lengths_ok.
  - unfold fields_unique. cbn. compute_done.
  - compute_done.
  - split; [reflexivity | intros _; split; reflexivity].
Defined.

(** X12 at a concrete input: removing [weight] from [Linear]; [scale] moves
    from slot 2 to slot 1 and keeps its type. *)
Lemma unsafeRemoveAttribute_keeps_bindings_witness :
  ∃ c' k p p',
    getAttributeSlot (H := Reference.collaborators) "weight" Reference.Linear
    = (Returned k, Reference.Linear)
    ∧ unsafeRemoveAttribute (H := Reference.collaborators) "weight"
        Reference.Linear = (Returned tt, c')
    ∧ getAttributeSlot (H := Reference.collaborators) "scale" Reference.Linear
      = (Returned p, Reference.Linear)
    ∧ getAttributeSlot (H := Reference.collaborators) "scale" c'
      = (Returned p', c')
    ∧ p' = (if decide (p < k) then p else p - 1)
    ∧ attributeNames_ c' !! p' = Some "scale"
    ∧ attributeTypes_ c' !! p' = attributeTypes_ Reference.Linear !! p
    ∧ ((λ ps, ps !! p') <$> parameterSlots_ c')
      = ((λ ps, ps !! p) <$> parameterSlots_ Reference.Linear).
Proof.
  apply (unsafeRemoveAttribute_keeps_bindings (H := Reference.collaborators)
           Reference.Linear "weight" "scale").
  - exact Linear_lengths_ok.
  - compute_done.
  - compute_done.
  - discriminate.
Defined.

(** ** Methods *)

Section Methods.
Context `{Collaborators}.

Lemma getMethod_in_app ms1 ms2 name :
  getMethod_in (ms1 ++ ms2) name
  = match getMethod_in ms1 name with
    | Some m => Some m
    | None => getMethod_in ms2 name
    end.
Proof.
  induction ms1 as [|x ms1 IH]; simpl; [done|].
  by destruct (decide (name = fn_name x)).
Qed.

(** X13. A method that has been added is found under its name, the lookup
    of every other name gives what it gave before, the method list grows at
    its end only, and the method is never replaced: a later [addMethod]
    under the same name throws NameConflict and changes nothing. *)
Theorem addMethod_then_found c method c' :
  addMethod method c = (Returned tt, c') →
  getMethod c' (fn_name method) = Some method
  ∧ (∀ other, other ≠ fn_name method → getMethod c' other = getMethod c other)
  ∧ methods c' = methods c ++ [method]
  ∧ (∀ again, fn_name again = fn_name method →
       addMethod again c'
       = (Thrown (c10_Error NameConflict (redefine_message again c')), c')
       ∧ getMethod c' (fn_name again) = Some method).
Proof.
  rewrite addMethod_eq.
  destruct (getMethod c (fn_name method)) as [m|] eqn:Hfresh; [done|].
  intros [= <-]. unfold getMethod, methods in *. cbn [methods_ set_methods].
  assert (Hfound : getMethod_in (methods_ c ++ [method]) (fn_name method)
                   = Some method).
  { rewrite getMethod_in_app, Hfresh. cbn. by rewrite decide_True. }
  split_and!; [done| |done|].
  - intros other Hne. rewrite getMethod_in_app.
    destruct (getMethod_in (methods_ c) other); [done|].
    cbn. by rewrite decide_False.
  - intros again Hname. rewrite addMethod_eq. unfold getMethod.
    cbn [methods_ set_methods]. by rewrite Hname, Hfound.
Qed.

(** X14. [getMethod] returns the first method of the given name: it gives
    [m] exactly when [m] is stored at some index under that name and no
    method before that index has the name, and it gives null exactly when no
    method has the name. *)
Theorem getMethod_first_match c name :
  (∀ m, getMethod c name = Some m ↔
        ∃ i, methods c !! i = Some m ∧ fn_name m = name
             ∧ ∀ j x, j < i → methods c !! j = Some x → fn_name x ≠ name)
  ∧ (getMethod c name = None ↔ ∀ x, x ∈ methods c → fn_name x ≠ name).
Proof.
  unfold getMethod, methods. split.
  - intros m. induction (methods_ c) as [|x ms IH]; simpl.
    + split; [done|]. by intros (i & Hi & _).
    + destruct (decide (name = fn_name x)) as [->|Hne].
      * split.
        -- intros [= ->]. exists 0. split_and!; [done..|]. intros j y Hj. lia.
        -- intros (i & Hi & Hname & Hfirst). destruct i as [|i].
           ++ cbn in Hi. congruence.
           ++ by destruct (Hfirst 0 x ltac:(lia) eq_refl).
      * rewrite IH. split.
        -- intros (i & Hi & Hname & Hfirst). exists (S i). split_and!; [done..|].
           intros [|j] y Hj Hy; cbn in Hy.
           ++ by intros <-; simplify_eq.
           ++ apply (Hfirst j y); [lia|done].
        -- intros (i & Hi & Hname & Hfirst). destruct i as [|i].
           ++ cbn in Hi. by simplify_eq.
           ++ exists i. split_and!; [done..|].
              intros j y Hj Hy. apply (Hfirst (S j) y); [lia|done].
  - rewrite getMethod_in_None. split.
    + intros Hnin x Hx Hname. apply Hnin. rewrite <- Hname.
      by apply list_elem_of_fmap_2.
    + intros Hall (x & -> & Hx)%list_elem_of_fmap. by apply (Hall x).
Qed.

End Methods.

(** X13 at a concrete input: the method [reset] added to [Linear]. *)
Lemma addMethod_then_found_witness :
  let reset := mkFunction 9 "reset" Reference.area_float in
  let c' := (addMethod (H := Reference.collaborators) reset Reference.Linear).2 in
  getMethod c' "reset" = Some reset
  ∧ (∀ other, other ≠ "reset" → getMethod c' other = getMethod Reference.Linear other)
  ∧ methods c' = methods Reference.Linear ++ [reset]
  ∧ (∀ again, fn_name again = "reset" →
       addMethod (H := Reference.collaborators) again c'
       = (Thrown (c10_Error NameConflict
                    (redefine_message (H := Reference.collaborators) again c')),
          c')
       ∧ getMethod c' (fn_name again) = Some reset).
Proof.
  apply (addMethod_then_found (H := Reference.collaborators) Reference.Linear
           (mkFunction 9 "reset" Reference.area_float)).
  reflexivity.
Defined.

(** X14 at a concrete input: [Linear] has no method [backward]. *)
Lemma getMethod_first_match_witness :
  getMethod Reference.Linear "backward" = None.
Proof.
  apply (getMethod_first_match Reference.Linear "backward").
  intros x [->|Hx%elem_of_nil]%elem_of_cons; [discriminate | done].
Defined.

(** X7 at a concrete input: an attribute [gain] on [Linear]. *)
Lemma adds_return_iff_witness :
  ∃ slot c', addAttribute (H := Reference.collaborators) "gain" FloatType false
               Reference.Linear = (Returned slot, c').
Proof.
  apply (adds_return_iff (H := Reference.collaborators) Reference.Linear
           "gain" FloatType false IVNone).
  split_and!; [compute_done.. |].
  split; [reflexivity | discriminate].
Defined.

(** ** Sequences of calls *)

Section Sequences.
Context `{Collaborators}.















Lemma checkNotExist_defined name what c :
  lengths_ok c → (checkNotExist name what c).1 ≠ Thrown UndefinedBehaviour.
Proof.
  intros (Hty & _ & Hcv). rewrite checkNotExist_eq.
  destruct (decide (name ∈ constantNames_ c)) as [Hc|Hc].
  - destruct (lookup_lt_is_Some_2 (constantValues_ c)
                (find_pos name (constantNames_ c) 0)) as [v Hv].
    { rewrite Hcv. by apply find_pos_lt_iff. }
    by rewrite Hv.
  - destruct (decide (name ∈ attributeNames_ c)) as [Ha|Ha]; [|done].
    destruct (lookup_lt_is_Some_2 (attributeTypes_ c)
                (find_pos name (attributeNames_ c) 0)) as [t Ht].
    { rewrite Hty. by apply find_pos_lt_iff. }
    by rewrite Ht.
Qed.

(** On a class type whose parallel sequences agree in length, a call of a
    mutator never runs into undefined behaviour and leaves the sequences in
    agreement, unless it is a parameter add on a module that gets as far as
    the parameter-type check and fails there. *)
Lemma mutate_keeps_lengths call c :
  lengths_ok c →
  (∀ name type,
     call = AddAttribute name type true →
     is_module c = true → is_parameter_type type = false →
     name ∈ constantNames_ c ∨ name ∈ attributeNames_ c
     ∨ containsAny type = true) →
  (mutate call c).1 ≠ Thrown UndefinedBehaviour
  ∧ lengths_ok (mutate call c).2.
Proof.
  intros Hok Hcall. destruct call; cbn [mutate].
  - unfold bind.
    pose proof (checkNotExist_defined name0
                  (if is_parameter then "parameter" else "attribute") c Hok)
      as Hdef.
    destruct (addAttribute name0 type is_parameter c) as [[slot|e] c1] eqn:Hadd.
    + split; [done|]. by eapply addAttribute_returned_lengths_ok.
    + cbn. revert Hadd. rewrite addAttribute_eq.
      destruct (checkNotExist name0 _ c) as [[[]|e0] c0] eqn:Hcheck;
        [|intros [= <- <-]; by split].
      apply checkNotExist_returns in Hcheck as (Hnc & Hna & _).
      destruct (containsAny type) eqn:Hany; [intros [= <- <-]; by split|].
      assert (Hpushed : is_module c = false → lengths_ok (pushed name0 type c)).
      { intros Hm. destruct Hok as (Hty & Hps & Hcv).
        split_and!; cbn; [|intros ps Heq; unfold is_module in Hm; by rewrite Heq in Hm|done].
        rewrite !length_app. cbn. lia. }
      destruct is_parameter; cbn [andb]; [|done].
      destruct (is_module c) eqn:Hm; cbn [negb].
      * destruct (is_parameter_type type) eqn:Hpt; cbn [negb]; [done|].
        destruct (Hcall name0 type eq_refl eq_refl Hpt) as [?|[?|?]];
          [done|done|congruence].
      * intros [= <- <-]. split; [done|]. by apply Hpushed.
  - unfold bind.
    pose proof (checkNotExist_defined name0 "constant" c Hok) as Hdef.
    pose proof (addConstant_lengths_ok name0 value c Hok) as Hlen.
    revert Hlen. rewrite addConstant_eq.
    by destruct (checkNotExist name0 _ c) as [[[]|e0] c0].
  - pose proof (addMethod_lengths_ok method c Hok) as Hlen.
    revert Hlen. rewrite addMethod_eq.
    by destruct (getMethod c (fn_name method)).
  - pose proof (unsafeRemoveAttribute_lengths_ok name0 c Hok) as Hlen.
    split; [|done].
    destruct (decide (name0 ∈ attributeNames_ c)) as [Hin|Hin].
    + by rewrite unsafeRemoveAttribute_eq.
    + unfold unsafeRemoveAttribute, bind.
      by rewrite getAttributeSlot_eq, decide_False.
  - pose proof (unsafeRemoveConstant_lengths_ok name0 c Hok) as Hlen.
    split; [|done].
    destruct (decide (name0 ∈ constantNames_ c)) as [Hin|Hin].
    + by rewrite unsafeRemoveConstant_eq.
    + unfold unsafeRemoveConstant, bind.
      by rewrite getConstantSlot_eq, decide_False.
Qed.

End Sequences.



(** ** What [refine] returns *)

Section RefineResult.
Context `{Collaborators}.

(** One iteration of the attribute loop of [refine], read backwards. *)
Lemma refine_step_inv c ts i c' :
  i < length (attributeNames_ c) →
  (ri <- vec_at ts i ;;
   ti <- vec_at (attributeTypes_ c) i ;;
   AT_ASSERT (type_isSubtypeOf ri ti)
     "refined_slots[i]->isSubtypeOf(attributeTypes_[i])" ;;
   ni <- vec_at (attributeNames_ c) i ;;
   addAttribute ni ri addAttribute_default_is_parameter ;;
   ret tt) (refining c ts i) = (Returned tt, c') →
  c' = refining c ts (S i)
  ∧ ∃ t a n,
      ts !! i = Some t ∧ attributeTypes_ c !! i = Some a
      ∧ attributeNames_ c !! i = Some n
      ∧ type_isSubtypeOf t a = true ∧ containsAny t = false
      ∧ n ∉ take i (attributeNames_ c).
Proof.
  intros Hi.
  destruct (lookup_lt_is_Some_2 (attributeNames_ c) i Hi) as [n Hn].
  unfold bind at 1, vec_at at 1.
  destruct (ts !! i) as [t|] eqn:Ht; [|done]. unfold ret at 1.
  unfold bind at 1, vec_at at 1.
  destruct (attributeTypes_ c !! i) as [a|] eqn:Ha; [|done]. unfold ret at 1.
  unfold bind at 1, AT_ASSERT.
  destruct (type_isSubtypeOf t a) eqn:Hsub; [|done]. unfold ret at 1.
  unfold bind at 1. rewrite (vec_at_Some _ _ _ _ Hn).
  unfold bind. rewrite addAttribute_eq.
  destruct (checkNotExist n _ (refining c ts i)) as [[[]|e] c0] eqn:Hcheck;
    [|done].
  apply checkNotExist_returns in Hcheck as (_ & Hfresh & _). cbn in Hfresh.
  destruct (containsAny t) eqn:Hany; [done|].
  unfold addAttribute_default_is_parameter. cbn [andb]. unfold ret.
  intros [= <-]. split.
  - unfold refining, pushed. cbn.
    by rewrite (take_S_r _ _ _ Hn), (take_S_r _ _ _ Ht).
  - by exists t, a, n.
Qed.

Lemma refine_loop_inv c ts k lo c' :
  lo + k ≤ length (attributeNames_ c) →
  for_each (seq lo k) (fun i =>
    ri <- vec_at ts i ;;
    ti <- vec_at (attributeTypes_ c) i ;;
    AT_ASSERT (type_isSubtypeOf ri ti)
      "refined_slots[i]->isSubtypeOf(attributeTypes_[i])" ;;
    ni <- vec_at (attributeNames_ c) i ;;
    addAttribute ni ri addAttribute_default_is_parameter ;;
    ret tt) (refining c ts lo) = (Returned tt, c') →
  c' = refining c ts (lo + k)
  ∧ ∀ i, lo ≤ i < lo + k →
      ∃ t a n,
        ts !! i = Some t ∧ attributeTypes_ c !! i = Some a
        ∧ attributeNames_ c !! i = Some n
        ∧ type_isSubtypeOf t a = true ∧ containsAny t = false
        ∧ n ∉ take i (attributeNames_ c).
Proof.
  revert lo. induction k as [|k IH]; intros lo Hk.
  - cbn. intros [= <-]. rewrite Nat.add_0_r. split; [done|]. intros i Hi. lia.
  - cbn [seq for_each]. unfold bind at 1.
    match goal with
    | |- context [?body (refining c ts lo)] =>
        destruct (body (refining c ts lo)) as [[[]|e] c1] eqn:Hstep
    end; [|done].
    apply refine_step_inv in Hstep as [-> Hfacts]; [|lia].
    intros [-> Hrest]%IH; [|lia]. split; [f_equal; lia|].
    intros i Hi. destruct (decide (i = lo)) as [->|Hne]; [done|].
    apply Hrest. lia.
Qed.

Lemma for_each_addMethod_inv ms c c' :
  for_each ms addMethod c = (Returned tt, c') →
  c' = set_methods (methods_ c ++ ms) c
  ∧ (NoDup (fn_name <$> methods_ c) → NoDup (fn_name <$> (methods_ c ++ ms))).
Proof.
  revert c. induction ms as [|m ms IH]; intros c; cbn [for_each].
  - intros [= <-]. rewrite app_nil_r. split; [by destruct c | done].
  - unfold bind. rewrite addMethod_eq.
    destruct (getMethod c (fn_name m)) as [x|] eqn:Hfresh; [done|].
    intros [-> Hnd]%IH. cbn in *. rewrite <- app_assoc in *. cbn in *.
    split; [by destruct c|].
    intros Hc. apply Hnd. rewrite fmap_app. cbn.
    apply NoDup_app. split; [done|]. split; [|apply NoDup_singleton].
    intros y Hy ->%list_elem_of_singleton.
    by apply getMethod_in_None in Hfresh.
Qed.

(** What a returning [refine] has checked and built. *)
Lemma refine_returned c ts c' :
  refine c ts = Returned c' →
  c' = refined c ts
  ∧ length ts = numAttributes c
  ∧ NoDup (fn_name <$> methods_ c)
  ∧ ∀ i, i < numAttributes c →
      ∃ t a n,
        ts !! i = Some t ∧ attributeTypes_ c !! i = Some a
        ∧ attributeNames_ c !! i = Some n
        ∧ type_isSubtypeOf t a = true ∧ containsAny t = false
        ∧ n ∉ take i (attributeNames_ c).
Proof.
  unfold refine, refine_body.
  change (create (name c) (compilation_unit_ c) create_default_is_module)
    with (refining c ts 0).
  unfold bind at 1, AT_ASSERT at 1.
  case_bool_decide as Hlen; [|done]. unfold ret at 1.
  unfold bind at 1.
  match goal with
  | |- context [for_each (seq 0 ?n) ?body (refining c ts 0)] =>
      destruct (for_each (seq 0 n) body (refining c ts 0))
        as [[[]|e] c1] eqn:Hloop
  end; [|done].
  apply refine_loop_inv in Hloop as [-> Hfacts]; [|lia].
  destruct (for_each (methods c) addMethod _) as [[[]|e] c2] eqn:Hms; [|done].
  apply for_each_addMethod_inv in Hms as [-> Hnd].
  intros [= <-]. unfold numAttributes in *. split_and!.
  - unfold refined, refining, set_methods, methods. cbn.
    by rewrite !take_ge by lia.
  - done.
  - apply Hnd. cbn. apply NoDup_nil_2.
  - intros i Hi. apply Hfacts. lia.
Qed.

(** X18. Whenever [refine] returns, the class type it returns carries the
    receiver's qualified name and compilation unit, its attribute names in
    order, the replacements as attribute types and its methods in order, and
    nothing else: it has no parameter slots and no constants, whatever the
    receiver had. *)
Theorem refine_result c ts c' :
  refine c ts = Returned c' →
  name c' = name c
  ∧ compilation_unit_ c' = compilation_unit_ c
  ∧ attributeNames_ c' = attributeNames_ c
  ∧ attributeTypes_ c' = ts
  ∧ parameterSlots_ c' = None
  ∧ constantNames_ c' = [] ∧ constantValues_ c' = []
  ∧ methods c' = methods c
  ∧ (∀ name, findConstant name c' = (Returned None, c')).
Proof.
  intros (-> & _)%refine_returned. by split_and!.
Qed.

(** X19. On a class type whose parallel sequences agree in length, [refine]
    returns exactly when there is one replacement per attribute, every
    replacement is a subtype of the attribute type at its slot and contains
    no catch-all type, and the attribute names and the method names of the
    receiver are unique; in every other case it throws. *)
Theorem refine_returns_iff c ts :
  lengths_ok c →
  (∃ c', refine c ts = Returned c')
  ↔ length ts = numAttributes c
    ∧ names_ok c
    ∧ Forall2 (λ t a, type_isSubtypeOf t a = true) ts (attributeTypes_ c)
    ∧ Forall (λ t, containsAny t = false) ts.
Proof.
  intros Hok. split.
  - intros (c' & (_ & Hlen & Hms & Hfacts)%refine_returned).
    destruct Hok as (Hty & _). unfold numAttributes in *.
    split_and!; [done| | |].
    + split; [|done]. apply NoDup_alt. intros i j x Hi Hj.
      destruct (Nat.lt_trichotomy i j) as [Hlt|[?|Hlt]]; [|done|].
      * destruct (Hfacts j) as (_ & _ & n & _ & _ & Hn & _ & _ & Hfresh).
        { by eapply lookup_lt_Some. }
        simplify_eq. destruct Hfresh. apply elem_of_take. by exists i.
      * destruct (Hfacts i) as (_ & _ & n & _ & _ & Hn & _ & _ & Hfresh).
        { by eapply lookup_lt_Some. }
        simplify_eq. destruct Hfresh. apply elem_of_take. by exists j.
    + apply Forall2_same_length_lookup_2; [lia|].
      intros i t a Ht Ha.
      destruct (Hfacts i) as (t' & a' & _ & Ht' & Ha' & _ & Hsub & _).
      { rewrite <- Hlen. by eapply lookup_lt_Some. }
      by simplify_eq.
    + apply Forall_lookup. intros i t Ht.
      destruct (Hfacts i) as (t' & _ & _ & Ht' & _ & _ & _ & Hany & _).
      { rewrite <- Hlen. by eapply lookup_lt_Some. }
      by simplify_eq.
  - intros (Hlen & Hnames & Hsub & Hany). exists (refined c ts).
    by apply refine_ok.
Qed.

End RefineResult.

(** X18 at a concrete input: refining [Linear], which has a constant. *)
Lemma refine_result_witness :
  let c' := refined Reference.Linear [TensorType; NoneType; FloatType] in
  name c' = Some "Linear"
  ∧ compilation_unit_ c' = 0
  ∧ attributeNames_ c' = ["weight"; "bias"; "scale"]
  ∧ attributeTypes_ c' = [TensorType; NoneType; FloatType]
  ∧ parameterSlots_ c' = None
  ∧ constantNames_ c' = [] ∧ constantValues_ c' = []
  ∧ methods c' = methods Reference.Linear
  ∧ (∀ name, findConstant name c' = (Returned None, c')).
Proof.
  intros c'.
  exact (refine_result (H := Reference.collaborators) Reference.Linear
           [TensorType; NoneType; FloatType] c' eq_refl).
Defined.

(** X19 at a concrete input: refining [Linear]. *)
Lemma refine_returns_iff_witness :
  ∃ c', refine (H := Reference.collaborators) Reference.Linear
          [TensorType; NoneType; FloatType] = Returned c'.
Proof.
  apply (refine_returns_iff (H := Reference.collaborators) Reference.Linear
           [TensorType; NoneType; FloatType] Linear_lengths_ok).
  split_and!; [reflexivity | exact Linear_names_ok | repeat constructor..].
Defined.

(** ** Diagnostics of the subtype check *)

Section Diagnostics.
Context `{Collaborators}.


Lemma append_assoc (a b d : string) : (a +:+ b) +:+ d = a +:+ b +:+ d.
Proof.
  induction a as [|x a IH]; [done|].
  change (String x ((a +:+ b) +:+ d) = String x (a +:+ b +:+ d)). by f_equal.
Qed.

Lemma prefix_append (n b : string) : String.prefix n (n +:+ b) = true.
Proof.
  induction n as [|x n IH].
  - by destruct b.
  - change (String.prefix (String x n) (String x (n +:+ b)) = true).
    cbn [String.prefix]. by destruct (ascii_dec x x).
Qed.

Lemma mentions_prefix (n s : string) : String.prefix n s = true → mentions s n = true.
Proof.
  unfold mentions. destruct s as [|y s]; cbn.
  - by destruct n.
  - by intros ->.
Qed.

(** A text mentions every string that it contains. *)
Lemma mentions_append (a n b : string) : mentions (a +:+ n +:+ b) n = true.
Proof.
  induction a as [|x a IH].
  - change (mentions (n +:+ b) n = true).
    apply mentions_prefix, prefix_append.
  - change (mentions (String x (a +:+ n +:+ b)) n = true).
    unfold mentions in *. cbn [String.index].
    destruct (String.prefix n (String x (a +:+ n +:+ b))); [done|].
    by destruct (String.index 0 n (a +:+ n +:+ b)).
Qed.



(** X21. A class type without methods is not a subtype of an interface that
    requires a method (the module-flag rule permitting): the check is false
    and the text it appends is the report on the first required method,
    which mentions that method's name. *)
Theorem no_methods_not_subtype c iface schema rest w :
  methods c = [] → iface_methods iface = schema :: rest →
  module_rule c iface →
  isSubtypeOf c (InterfaceType iface) = false
  ∧ isSubtypeOfExt c (InterfaceType iface) (Some w)
    = (false, Some (w +:+ missing_method_message c (InterfaceType iface) schema))
  ∧ mentions (w +:+ missing_method_message c (InterfaceType iface) schema)
      (schema_name schema) = true.
Proof.
  unfold methods, module_rule. intros Hms Hreq Hrule.
  unfold isSubtypeOf, isSubtypeOfExt. cbn [cast_InterfaceType].
  rewrite Hrule, Hreq. cbn [check_iface_methods]. unfold getMethod.
  rewrite Hms. cbn. split_and!; [done..|].
  unfold missing_method_message.
  rewrite <- (append_assoc w), <- (append_assoc (w +:+ _)),
    <- (append_assoc ((w +:+ _) +:+ _)).
  apply mentions_append.
Qed.

End Diagnostics.

(** X21 at a concrete input: [Point], which has no method, against
    [Shaped]. *)
Lemma no_methods_not_subtype_witness :
  isSubtypeOf (H := Reference.collaborators) Reference.Point
    (InterfaceType Reference.Shaped) = false
  ∧ isSubtypeOfExt (H := Reference.collaborators) Reference.Point
      (InterfaceType Reference.Shaped) (Some "")
    = (false,
       Some ("" +:+ missing_method_message (H := Reference.collaborators)
                      Reference.Point (InterfaceType Reference.Shaped)
                      (mkFunctionSchema "area"
                         [("self", InterfaceType (mkInterfaceType "Shaped" [] false))]
                         [FloatType])))
  ∧ mentions
      ("" +:+ missing_method_message (H := Reference.collaborators)
                Reference.Point (InterfaceType Reference.Shaped)
                (mkFunctionSchema "area"
                   [("self", InterfaceType (mkInterfaceType "Shaped" [] false))]
                   [FloatType]))
      "area" = true.
Proof.
  apply (no_methods_not_subtype (H := Reference.collaborators) Reference.Point
           Reference.Shaped
           (mkFunctionSchema "area"
              [("self", InterfaceType (mkInterfaceType "Shaped" [] false))]
              [FloatType]) [] ""); reflexivity.
Defined.

(** ** Conformance to an interface *)

Section Conformance.
Context `{Collaborators}.





(** X23. A class type with unique method names conforms to every interface
    that requires only signatures of its own methods, under the names those
    methods have on the class, as long as each such signature is accepted
    as a subtype of itself and the module-flag rule permits. *)
Theorem isSubtypeOf_own_signatures c iface :
  module_rule c iface → names_ok c →
  Forall (λ schema,
      (schema_isSubtypeOf schema schema true false).1 = true
      ∧ ∃ m, m ∈ methods c ∧ fn_name m = schema_name schema
             ∧ getSchema m = schema)
    (iface_methods iface) →
  isSubtypeOf c (InterfaceType iface) = true.
Proof.
  intros Hrule [_ Hnd] Hown. rewrite isSubtypeOf_iface by done.
  apply forallb_forall. intros schema Hin%list_elem_of_In.
  rewrite Forall_forall in Hown.
  destruct (Hown schema Hin) as (Hrefl & m & Hm & Hname & Hschema).
  unfold satisfies, getMethod, methods in *.
  rewrite <- Hname, (getMethod_in_NoDup _ _ Hnd Hm). by rewrite Hschema.
Qed.

End Conformance.


(** X23 at a concrete input: [Linear] against an interface made of the
    signature of its [forward]. *)
Lemma isSubtypeOf_own_signatures_witness :
  isSubtypeOf (H := Reference.collaborators) Reference.Linear
    (InterfaceType
       (mkInterfaceType "Forward"
          [mkFunctionSchema "forward"
             [("self", NamedClassType "Linear"); ("input", TensorType)]
             [TensorType]] true)) = true.
Proof.
  apply (isSubtypeOf_own_signatures (H := Reference.collaborators)).
  - reflexivity.
  - exact Linear_names_ok.
  - repeat constructor. eexists. split; [left|]. split; reflexivity.
Defined.

(** ** Sequences of calls and the lengths *)

Section SequenceLengths.
Context `{Collaborators}.

(** X17. Starting from a class type whose parallel sequences agree in
    length, a sequence of mutator calls in which every parameter that is
    added has a tensor, optional-tensor or none type never runs into
    undefined behaviour and ends with the sequences in agreement: the
    attribute names, the attribute types and, on a module, the parameter
    slots have one length, and so have the constant names and values. *)
Theorem mutations_keep_lengths calls c0 :
  lengths_ok c0 →
  Forall (λ call, ∀ name type,
            call = AddAttribute name type true → is_parameter_type type = true)
    calls →
  ∃ c, mutations calls c0 = Some c ∧ lengths_ok c.
Proof.
  intros Hok Hcalls. revert c0 Hok.
  induction Hcalls as [|call rest Hcall _ IH]; intros c0 Hok; cbn [mutations].
  - by exists c0.
  - destruct (mutate_keeps_lengths call c0 Hok) as [Hdef Hok'].
    { intros name type Heq _ Hpt. rewrite (Hcall name type Heq) in Hpt.
      discriminate Hpt. }
    destruct (mutate call c0) as [[[]|[]] c1]; try done; by apply IH.
Qed.

End SequenceLengths.

(** X17 at a concrete input: calls on [Linear], among them a parameter on a
    taken name and the removal of a missing constant. *)
Lemma mutations_keep_lengths_witness :
  ∃ c, mutations (H := Reference.collaborators)
         [AddAttribute "gain" TensorType true;
          AddAttribute "weight" NoneType true;
          RemoveConstant "stride"; RemoveAttribute "bias";
          AddAttribute "note" StringType false]
         Reference.Linear = Some c
       ∧ lengths_ok c.
Proof.
  apply (mutations_keep_lengths (H := Reference.collaborators)).
  - exact Linear_lengths_ok.
  - repeat constructor; intros name type [= <- <-]; reflexivity.
Defined.
